(** * The gateway session client of disgord (websocket/client.go)

    A shallow embedding of [websocket.Client]: the session record, the
    methods that mutate it, and the goroutine bodies that the claims of the
    specification talk about.

    Conventions of the embedding.

    - A method of [*Client] is a computation in the monad [M]: it receives
      the client record, returns a result and the updated record, and
      appends to a trace of effects everything it does to the outside:
      channel sends, goroutines it starts, timer waits, calls on the
      transport [Conn], and log lines.
    - What a method reads from the outside (the clock, the transport's
      answers, which branch of a [select] fires) is an explicit argument.
    - Go's [uint] is a 64-bit word held in [Z] with the wrap-around written
      out; [uint8], [int64] likewise.  A [time.Time] is a count of
      nanoseconds in [Z]; a [time.Duration] is an [int64] of nanoseconds.
    - Mutexes are not modelled: each method body runs atomically. *)

From Stdlib Require Import ZArith List String Bool Lia Permutation.
Import ListNotations.

Local Open Scope string_scope.
Local Open Scope list_scope.
Local Open Scope Z_scope.

(* ===================================================================== *)
(** * Machine integers *)

Definition uint_bits : Z := 64.
Definition uint_modulus : Z := 2 ^ uint_bits.

(** Arithmetic on [uint] wraps modulo [2^64]. *)
Definition uint_wrap (z : Z) : Z := z mod uint_modulus.
Definition is_uint (z : Z) : Prop := 0 <= z < uint_modulus.

Definition uint8_wrap (z : Z) : Z := z mod 2 ^ 8.
Definition is_uint8 (z : Z) : Prop := 0 <= z < 2 ^ 8.

Definition int64_min : Z := - 2 ^ 63.
Definition int64_max : Z := 2 ^ 63 - 1.
Definition is_int64 (z : Z) : Prop := int64_min <= z <= int64_max.

(** Two's complement wrap-around of [int64] arithmetic. *)
Definition int64_wrap (z : Z) : Z := (z + 2 ^ 63) mod 2 ^ 64 - 2 ^ 63.

(* ===================================================================== *)
(** * package time *)

Module time.
Definition Time : Type := Z.
Definition Duration : Type := Z.

Definition Nanosecond : Duration := 1.
Definition Millisecond : Duration := 1000000.
Definition Second : Duration := 1000000000.

(** [t.After(u)]: t is strictly later than u. *)
Definition After (t u : Time) : bool := u <? t.

(** [t.Sub(u)]: the duration t-u, saturated to the range of [Duration]. *)
Definition Sub (t u : Time) : Duration :=
  if t - u <? int64_min then int64_min
  else if int64_max <? t - u then int64_max
  else t - u.
End time.

(* ===================================================================== *)
(** * package opcode *)

Module opcode.
(** Modelled from the spec: package [websocket/opcode] is not among the
    sources; the values are the wire protocol's opcode set as the
    specification lists it (0 DiscordEvent, 1 Heartbeat, 2 Identify,
    3 StatusUpdate, 4 VoiceStateUpdate, 6 Resume, 7 Reconnect,
    8 RequestGuildMembers, 9 InvalidSession, 10 Hello, 11 HeartbeatAck).
    The two internal pseudo-opcodes [Shutdown] and [Close] have no wire
    value and are fields of [Consts] below. *)
Definition DiscordEvent : Z := 0.
Definition Heartbeat : Z := 1.
Definition Identify : Z := 2.
Definition StatusUpdate : Z := 3.
Definition VoiceStateUpdate : Z := 4.
Definition Resume : Z := 6.
Definition Reconnect : Z := 7.
Definition RequestGuildMembers : Z := 8.
Definition InvalidSession : Z := 9.
Definition Hello : Z := 10.
Definition HeartbeatAck : Z := 11.
End opcode.

(* ===================================================================== *)
(** * Constants declared outside the sources *)

(** The string constants of packages [websocket/event] and [websocket/cmd],
    the internal opcodes and [runtime.GOOS].  client.go only ever compares
    them, so they are taken as parameters.  [event_Resume] is the one
    constant [event.Resume]: client.go uses it both as the command name of
    the Resume command (in [Emit]) and as the event name that
    [eventHandler] lets through next to [event.Ready].

    [commands_distinct] records what the Go compiler enforces on the
    [switch] of [Emit]: the case constants are pairwise different. *)
Record Consts := {
  event_Shutdown : string;
  event_Close : string;
  event_Heartbeat : string;
  event_Identify : string;
  event_Resume : string;
  event_Ready : string;
  cmd_RequestGuildMembers : string;
  cmd_UpdateVoiceState : string;
  cmd_UpdateStatus : string;
  opcode_Shutdown : Z;
  opcode_Close : Z;
  runtime_GOOS : string;
  commands_distinct :
    NoDup [event_Shutdown; event_Close; event_Heartbeat; event_Identify;
           event_Resume; cmd_RequestGuildMembers; cmd_UpdateVoiceState;
           cmd_UpdateStatus]
}.

(* ===================================================================== *)
(** * Data *)

(** Go's [error]: [None] is nil, [Some msg] an error with that message. *)
Definition error : Type := option string.

Definition maxReconnectTries : Z := 5.

Module errors.
Definition New (msg : string) : error := Some msg.
End errors.

(** [type Event struct] *)
Record Event := {
  Name : string;
  Data : list Byte.byte
}.

(** [type Config struct], without the [*http.Client]. *)
Record Config := {
  Token : string;
  ChannelBuffer : Z;
  Endpoint : string;
  Encoding : string;
  Version : Z;
  Browser : string;
  Device : string;
  GuildLargeThreshold : Z;
  ShardID : Z;
  ShardCount : Z
}.

Definition set_Endpoint (e : string) (c : Config) : Config :=
  {| Token := Token c; ChannelBuffer := ChannelBuffer c; Endpoint := e;
     Encoding := Encoding c; Version := Version c; Browser := Browser c;
     Device := Device c; GuildLargeThreshold := GuildLargeThreshold c;
     ShardID := ShardID c; ShardCount := ShardCount c |}.

(** Modelled from the spec: [discordPacket] is declared outside the sources;
    the fields are those of the specification's InboundPacket, with the
    types client.go uses them at ([p.SequenceNumber] is compared with a
    [uint], [p.EventName] with a string, [p.Data] is a byte slice). *)
Record discordPacket := {
  p_Op : Z;
  p_Data : list Byte.byte;
  p_SequenceNumber : Z;
  p_EventName : string
}.

(** Modelled from the spec: [helloPacket] and [readyPacket] are declared
    outside the sources; the fields are the ones client.go reads. *)
Record helloPacket := {
  HeartbeatInterval : Z
}.

Record readyPacket := {
  SessionID : string;
  Trace : list string
}.

(** The anonymous struct [sendIdentityPacket] builds. *)
Record identityPayload := {
  id_Token : string;
  id_OS : string;
  id_Browser : string;
  id_Device : string;
  id_Compress : bool;
  id_LargeThreshold : Z;
  id_Shard : option (Z * Z)
}.

(** The anonymous struct [sendHelloPacket] builds for a Resume. *)
Record resumePayload := {
  rs_Token : string;
  rs_SessionID : string;
  rs_SequenceNr : Z
}.

(** The [interface{}] values handed to [Emit]. *)
Inductive payload :=
| DNil
| DUint (n : Z)
| DIdentify (i : identityPayload)
| DResume (r : resumePayload)
| DOther (raw : list Byte.byte).

(** [clientPacket], as [Emit] fills it. *)
Record clientPacket := {
  c_Op : Z;
  c_Data : payload
}.

(** The goroutines client.go starts with [go]. *)
Inductive goroutine :=
| GOperationHandlers
| GReceiver
| GEmitter
| GReconnect
| GInvalidSession
| GPulsate
| GWatchdog (last sent : time.Time).

Inductive level := Debug | Info | Error.

(** What a method does to the outside, in program order. *)
Inductive effect :=
| Forward (e : Event)                 (* m.eventChan <- e *)
| Enqueue (c : clientPacket)          (* m.emitChan <- c *)
| RestartSignal                       (* m.restart <- 1 *)
| Spawn (g : goroutine)               (* go g *)
| Sleep (d : time.Duration)           (* <-time.After(d) *)
| SleepOrShutdown (d : time.Duration) (shutdown : bool)
                                      (* select { time.After(d); m.shutdown } *)
| GetGatewayRoute (version : Z)       (* getGatewayRoute(httpClient, version) *)
| ConnOpen (url : string)             (* m.conn.Open(url, nil) *)
| ConnClose                           (* m.conn.Close() *)
| ConnWriteJSON (c : clientPacket)    (* m.conn.WriteJSON(c) *)
| CloseShutdown                       (* close(m.shutdown) *)
| CloseStopChan                       (* close(stopChan), in pulsate *)
| Printf (c : clientPacket)           (* fmt.Printf("could not send data ...", msg) *)
| Log (l : level) (msg : string)      (* logrus.Debug/Info/Error(msg) *)
| LogAttempt (try : Z)                (* logrus.Debugf("Reconnect attempt #%d\n", try) *)
| LogRetryIn (seconds : Z)            (* logrus.Info("reconnect failed, ... N = " + Itoa(seconds)) *)
| LogErr (l : level) (msg : string).  (* logrus.Debug/Info/Error(err) *)

(** What client.go takes from declarations outside the sources.

    - The rate limiter: an opaque state and its [Request] method, which
      answers and moves on.
    - [httd.Unmarshal] into a fresh [helloPacket] / [readyPacket]: the
      struct as the decoder leaves it, and the decoder's error.
    - The constants. *)
Class World := {
  ratelimiter : Type;
  Request : ratelimiter -> string -> bool * ratelimiter;
  unmarshal_hello : list Byte.byte -> helloPacket * error;
  unmarshal_ready : list Byte.byte -> readyPacket * error;
  K : Consts
}.

Section Client.

Context {W : World}.

(** [type Client struct], without the mutexes, the channels and the
    transport, which live on the trace. *)
Record Client := {
  conf : Config;
  lastRestart : Z;
  trackedEvents : list string;
  heartbeatInterval : Z;
  heartbeatLatency : time.Duration;
  lastHeartbeatAck : time.Time;
  sessionID : string;
  trace : list string;
  sequenceNumber : Z;
  ratelimit : ratelimiter;
  pulsating : Z;
  disconnected : bool;
  haveConnectedOnce : bool;
  timeoutMultiplier : Z
}.

Definition set_conf v (m : Client) : Client :=
  {| conf := v; lastRestart := lastRestart m; trackedEvents := trackedEvents m;
     heartbeatInterval := heartbeatInterval m; heartbeatLatency := heartbeatLatency m;
     lastHeartbeatAck := lastHeartbeatAck m; sessionID := sessionID m; trace := trace m;
     sequenceNumber := sequenceNumber m; ratelimit := ratelimit m; pulsating := pulsating m;
     disconnected := disconnected m; haveConnectedOnce := haveConnectedOnce m;
     timeoutMultiplier := timeoutMultiplier m |}.

Definition set_lastRestart v (m : Client) : Client :=
  {| conf := conf m; lastRestart := v; trackedEvents := trackedEvents m;
     heartbeatInterval := heartbeatInterval m; heartbeatLatency := heartbeatLatency m;
     lastHeartbeatAck := lastHeartbeatAck m; sessionID := sessionID m; trace := trace m;
     sequenceNumber := sequenceNumber m; ratelimit := ratelimit m; pulsating := pulsating m;
     disconnected := disconnected m; haveConnectedOnce := haveConnectedOnce m;
     timeoutMultiplier := timeoutMultiplier m |}.

Definition set_trackedEvents v (m : Client) : Client :=
  {| conf := conf m; lastRestart := lastRestart m; trackedEvents := v;
     heartbeatInterval := heartbeatInterval m; heartbeatLatency := heartbeatLatency m;
     lastHeartbeatAck := lastHeartbeatAck m; sessionID := sessionID m; trace := trace m;
     sequenceNumber := sequenceNumber m; ratelimit := ratelimit m; pulsating := pulsating m;
     disconnected := disconnected m; haveConnectedOnce := haveConnectedOnce m;
     timeoutMultiplier := timeoutMultiplier m |}.

Definition set_heartbeatInterval v (m : Client) : Client :=
  {| conf := conf m; lastRestart := lastRestart m; trackedEvents := trackedEvents m;
     heartbeatInterval := v; heartbeatLatency := heartbeatLatency m;
     lastHeartbeatAck := lastHeartbeatAck m; sessionID := sessionID m; trace := trace m;
     sequenceNumber := sequenceNumber m; ratelimit := ratelimit m; pulsating := pulsating m;
     disconnected := disconnected m; haveConnectedOnce := haveConnectedOnce m;
     timeoutMultiplier := timeoutMultiplier m |}.

Definition set_heartbeatLatency v (m : Client) : Client :=
  {| conf := conf m; lastRestart := lastRestart m; trackedEvents := trackedEvents m;
     heartbeatInterval := heartbeatInterval m; heartbeatLatency := v;
     lastHeartbeatAck := lastHeartbeatAck m; sessionID := sessionID m; trace := trace m;
     sequenceNumber := sequenceNumber m; ratelimit := ratelimit m; pulsating := pulsating m;
     disconnected := disconnected m; haveConnectedOnce := haveConnectedOnce m;
     timeoutMultiplier := timeoutMultiplier m |}.

Definition set_lastHeartbeatAck v (m : Client) : Client :=
  {| conf := conf m; lastRestart := lastRestart m; trackedEvents := trackedEvents m;
     heartbeatInterval := heartbeatInterval m; heartbeatLatency := heartbeatLatency m;
     lastHeartbeatAck := v; sessionID := sessionID m; trace := trace m;
     sequenceNumber := sequenceNumber m; ratelimit := ratelimit m; pulsating := pulsating m;
     disconnected := disconnected m; haveConnectedOnce := haveConnectedOnce m;
     timeoutMultiplier := timeoutMultiplier m |}.

Definition set_session sid tr (m : Client) : Client :=
  {| conf := conf m; lastRestart := lastRestart m; trackedEvents := trackedEvents m;
     heartbeatInterval := heartbeatInterval m; heartbeatLatency := heartbeatLatency m;
     lastHeartbeatAck := lastHeartbeatAck m; sessionID := sid; trace := tr;
     sequenceNumber := sequenceNumber m; ratelimit := ratelimit m; pulsating := pulsating m;
     disconnected := disconnected m; haveConnectedOnce := haveConnectedOnce m;
     timeoutMultiplier := timeoutMultiplier m |}.

Definition set_sequenceNumber v (m : Client) : Client :=
  {| conf := conf m; lastRestart := lastRestart m; trackedEvents := trackedEvents m;
     heartbeatInterval := heartbeatInterval m; heartbeatLatency := heartbeatLatency m;
     lastHeartbeatAck := lastHeartbeatAck m; sessionID := sessionID m; trace := trace m;
     sequenceNumber := v; ratelimit := ratelimit m; pulsating := pulsating m;
     disconnected := disconnected m; haveConnectedOnce := haveConnectedOnce m;
     timeoutMultiplier := timeoutMultiplier m |}.

Definition set_ratelimit v (m : Client) : Client :=
  {| conf := conf m; lastRestart := lastRestart m; trackedEvents := trackedEvents m;
     heartbeatInterval := heartbeatInterval m; heartbeatLatency := heartbeatLatency m;
     lastHeartbeatAck := lastHeartbeatAck m; sessionID := sessionID m; trace := trace m;
     sequenceNumber := sequenceNumber m; ratelimit := v; pulsating := pulsating m;
     disconnected := disconnected m; haveConnectedOnce := haveConnectedOnce m;
     timeoutMultiplier := timeoutMultiplier m |}.

Definition set_pulsating v (m : Client) : Client :=
  {| conf := conf m; lastRestart := lastRestart m; trackedEvents := trackedEvents m;
     heartbeatInterval := heartbeatInterval m; heartbeatLatency := heartbeatLatency m;
     lastHeartbeatAck := lastHeartbeatAck m; sessionID := sessionID m; trace := trace m;
     sequenceNumber := sequenceNumber m; ratelimit := ratelimit m; pulsating := v;
     disconnected := disconnected m; haveConnectedOnce := haveConnectedOnce m;
     timeoutMultiplier := timeoutMultiplier m |}.

Definition set_disconnected v (m : Client) : Client :=
  {| conf := conf m; lastRestart := lastRestart m; trackedEvents := trackedEvents m;
     heartbeatInterval := heartbeatInterval m; heartbeatLatency := heartbeatLatency m;
     lastHeartbeatAck := lastHeartbeatAck m; sessionID := sessionID m; trace := trace m;
     sequenceNumber := sequenceNumber m; ratelimit := ratelimit m; pulsating := pulsating m;
     disconnected := v; haveConnectedOnce := haveConnectedOnce m;
     timeoutMultiplier := timeoutMultiplier m |}.

Definition set_haveConnectedOnce v (m : Client) : Client :=
  {| conf := conf m; lastRestart := lastRestart m; trackedEvents := trackedEvents m;
     heartbeatInterval := heartbeatInterval m; heartbeatLatency := heartbeatLatency m;
     lastHeartbeatAck := lastHeartbeatAck m; sessionID := sessionID m; trace := trace m;
     sequenceNumber := sequenceNumber m; ratelimit := ratelimit m; pulsating := pulsating m;
     disconnected := disconnected m; haveConnectedOnce := v;
     timeoutMultiplier := timeoutMultiplier m |}.

(** The record [NewClient] and [NewTestClient] build (before [Start]). *)
Definition NewClient (config : Config) (rl : ratelimiter) : Client :=
  {| conf := config; lastRestart := 0; trackedEvents := [];
     heartbeatInterval := 0; heartbeatLatency := 0; lastHeartbeatAck := 0;
     sessionID := ""; trace := []; sequenceNumber := 0; ratelimit := rl;
     pulsating := 0; disconnected := true; haveConnectedOnce := false;
     timeoutMultiplier := 1 |}.

(* ===================================================================== *)
(** * The monad of methods *)

Definition M (A : Type) : Type := Client -> A * Client * list effect.

Definition ret {A} (a : A) : M A := fun m => (a, m, []).

Definition bind {A B} (c : M A) (k : A -> M B) : M B :=
  fun m =>
    let '(a, m1, t1) := c m in
    let '(b, m2, t2) := k a m1 in
    (b, m2, t1 ++ t2).

Definition get : M Client := fun m => (m, m, []).
Definition modify (f : Client -> Client) : M unit := fun m => (tt, f m, []).
Definition tell (e : effect) : M unit := fun m => (tt, m, [e]).

Definition result {A} (r : A * Client * list effect) : A := fst (fst r).
Definition final {A} (r : A * Client * list effect) : Client := snd (fst r).
Definition effects {A} (r : A * Client * list effect) : list effect := snd r.

Notation "x <- c ;; k" := (bind c (fun x => k))
  (at level 61, c at next level, right associativity).
Notation "c ;; k" := (bind c (fun _ => k))
  (at level 61, right associativity).

(** [if err != nil { logrus.X(err) }] *)
Definition log_if_err (l : level) (err : error) : M unit :=
  match err with
  | Some e => tell (LogErr l e)
  | None => ret tt
  end.

(* ===================================================================== *)
(** * Emit *)

(** The [switch command] of [Emit]: cases are tried from top to bottom;
    [None] is the [default] branch. *)
Definition command_opcode (command : string) : option Z :=
  if (command =? event_Shutdown K)%string then Some (opcode_Shutdown K)
  else if (command =? event_Close K)%string then Some (opcode_Close K)
  else if (command =? event_Heartbeat K)%string then Some opcode.Heartbeat
  else if (command =? event_Identify K)%string then Some opcode.Identify
  else if (command =? event_Resume K)%string then Some opcode.Resume
  else if (command =? cmd_RequestGuildMembers K)%string then Some opcode.RequestGuildMembers
  else if (command =? cmd_UpdateVoiceState K)%string then Some opcode.VoiceStateUpdate
  else if (command =? cmd_UpdateStatus K)%string then Some opcode.StatusUpdate
  else None.

(** The command table of the specification (command name, opcode), to
    compare the [switch] with, and the first-match lookup in it. *)
Definition command_table : list (string * Z) :=
  [(event_Shutdown K, opcode_Shutdown K);
   (event_Close K, opcode_Close K);
   (event_Heartbeat K, opcode.Heartbeat);
   (event_Identify K, opcode.Identify);
   (event_Resume K, opcode.Resume);
   (cmd_RequestGuildMembers K, opcode.RequestGuildMembers);
   (cmd_UpdateVoiceState K, opcode.VoiceStateUpdate);
   (cmd_UpdateStatus K, opcode.StatusUpdate)].

Fixpoint lookup (command : string) (table : list (string * Z)) : option Z :=
  match table with
  | [] => None
  | (name, op) :: table' =>
      if (command =? name)%string then Some op else lookup command table'
  end.

Definition err_not_connected : string :=
  "race condition detected: you must connect to the socket API/Gateway before you can send gateway commands!".

Definition err_unsupported (command : string) : string :=
  String.append "unsupported command: " command.

Definition err_rate_limited : string := "rate limited".

Definition Emit (command : string) (data : payload) : M error :=
  m <- get ;;
  if negb (haveConnectedOnce m) then
    ret (errors.New err_not_connected)
  else
    match command_opcode command with
    | None => ret (errors.New (err_unsupported command))
    | Some op =>
        let '(accepted, rl) := Request (ratelimit m) command in
        modify (set_ratelimit rl) ;;
        if negb accepted then
          ret (errors.New err_rate_limited)
        else
          tell (Enqueue {| c_Op := op; c_Data := data |}) ;;
          ret None
    end.

(** One turn of the [for] loop of [emitter]: what the [select] delivered
    ([None] when the shutdown channel fired or [emitChan] was closed, so
    that [open] is false), and the error [WriteJSON] answers with.  The
    result tells whether the loop goes on. *)
Definition emitter_turn (received : option clientPacket) (write_err : error) : M bool :=
  match received with
  | None => tell ConnClose ;; ret false
  | Some msg =>
      let data_is_nil := match c_Data msg with DNil => true | _ => false end in
      if data_is_nil && ((c_Op msg =? opcode_Shutdown K) || (c_Op msg =? opcode_Close K)) then
        tell ConnClose ;; ret false
      else
        tell (ConnWriteJSON msg) ;;
        match write_err with
        | Some _ => tell (Printf msg) ;; ret true
        | None => ret true
        end
  end.

(* ===================================================================== *)
(** * Connect, Disconnect, Shutdown *)

(** What one call of [Connect] meets outside: the answer of
    [getGatewayRoute] (asked only when the endpoint is empty) and the
    answer of [conn.Open]. *)
Record connect_env := {
  route_result : string * error;
  open_result : error
}.

Definition err_already_connected : string :=
  "cannot connect while a connection already exist".

(** The deferred closure of [Connect] receives [err] as it is when the
    [defer] statement runs, which is nil; it never closes the transport
    and is left out. *)
Definition Connect (env : connect_env) : M error :=
  m <- get ;;
  if negb (disconnected m) then
    ret (errors.New err_already_connected)
  else
    err <- (if (Endpoint (conf m) =? "")%string then
              tell (GetGatewayRoute (Version (conf m))) ;;
              modify (fun m => set_conf (set_Endpoint (fst (route_result env)) (conf m)) m) ;;
              ret (snd (route_result env))
            else ret None) ;;
    match err with
    | Some e => ret (Some e)
    | None =>
        m <- get ;;
        tell (ConnOpen (Endpoint (conf m))) ;;
        match open_result env with
        | Some e => ret (Some e)
        | None =>
            modify (set_haveConnectedOnce true) ;;
            modify (set_disconnected false) ;;
            tell (Spawn GReceiver) ;;
            tell (Spawn GEmitter) ;;
            ret None
        end
    end.

Definition err_already_disconnected : string := "already disconnected".

(** [conn_Disconnected] is the answer of [m.conn.Disconnected()]. *)
Definition Disconnect (conn_Disconnected : bool) : M error :=
  m <- get ;;
  if conn_Disconnected || negb (haveConnectedOnce m) then
    modify (set_disconnected true) ;;
    ret (errors.New err_already_disconnected)
  else
    _ <- Emit (event_Close K) DNil ;;
    modify (set_disconnected true) ;;
    tell (Sleep (int64_wrap (time.Second * 1 * timeoutMultiplier m))) ;;
    tell (Sleep (time.Millisecond * 10)) ;;
    ret None.

Definition Shutdown (conn_Disconnected : bool) : M error :=
  _ <- Disconnect conn_Disconnected ;;
  tell CloseShutdown ;;
  ret None.

(* ===================================================================== *)
(** * Tracked events *)

Fixpoint index_of (event : string) (l : list string) : option nat :=
  match l with
  | [] => None
  | x :: l' =>
      if (event =? x)%string then Some O
      else match index_of event l' with
           | Some i => Some (S i)
           | None => None
           end
  end.

Fixpoint set_nth (i : nat) (v : string) (l : list string) : list string :=
  match i, l with
  | _, [] => []
  | O, _ :: l' => v :: l'
  | S i', x :: l' => x :: set_nth i' v l'
  end.

(** The loop of [eventOfInterest]. *)
Fixpoint contains (name : string) (l : list string) : bool :=
  match l with
  | [] => false
  | x :: l' => if (name =? x)%string then true else contains name l'
  end.

Definition eventOfInterest (m : Client) (name : string) : bool :=
  contains name (trackedEvents m).

Definition RegisterEvent (event : string) : M unit :=
  m <- get ;;
  if contains event (trackedEvents m) then ret tt
  else modify (set_trackedEvents (trackedEvents m ++ [event])).

(** The first match is overwritten with the last element and the slice
    loses its last element. *)
Definition RemoveEvent (event : string) : M unit :=
  m <- get ;;
  match index_of event (trackedEvents m) with
  | Some i =>
      modify (set_trackedEvents
                (removelast (set_nth i (last (trackedEvents m) "") (trackedEvents m))))
  | None => ret tt
  end.

Definition err_latency : string := "latency not determined yet".

Definition HeartbeatLatency : M (time.Duration * error) :=
  m <- get ;;
  let duration := heartbeatLatency m in
  if duration =? 0 then ret (duration, errors.New err_latency)
  else ret (duration, None).

(* ===================================================================== *)
(** * The reconnect controller *)

(** [now] is [time.Now().UnixNano()]; the subtraction is on [int64]. *)
Definition lockRestart (now : Z) : M bool :=
  m <- get ;;
  let locked := time.Second / 2 <? int64_wrap (now - lastRestart m) in
  (if locked then modify (set_lastRestart now) else ret tt) ;;
  ret locked.

(** What one call of [reconnect] meets outside: the clock, the answer of
    [conn.Disconnected()], what the [Connect] of attempt [try] meets, and
    whether the shutdown channel fires during the wait that follows
    attempt [try]. *)
Record reconnect_env := {
  now : Z;
  conn_Disconnected : bool;
  attempt : Z -> connect_env;
  shutdown_during : Z -> bool
}.

Definition err_too_many : string := "Too many reconnect attempts".

(** The [for try := 0; try <= maxReconnectTries; try++] loop, entered at
    [try] with the named result [err].  [fuel] bounds the number of turns;
    [reconnect_loop_fuel] shows that the bound [reconnect] passes is never
    reached. *)
Fixpoint reconnect_loop (fuel : nat) (env : reconnect_env) (try : Z) (err : error)
  : M error :=
  match fuel with
  | O => ret err
  | S fuel' =>
      if try <=? maxReconnectTries then
        tell (LogAttempt try) ;;
        err <- Connect (attempt env try) ;;
        match err with
        | None =>
            tell (Log Info "successfully reconnected") ;;
            ret None
        | Some e =>
            if try =? maxReconnectTries then
              ret (errors.New err_too_many)
            else
              tell (LogRetryIn ((try + 3) * 2)) ;;
              tell (LogErr Info e) ;;
              tell (SleepOrShutdown ((try + 3) * 2 * time.Second) (shutdown_during env try)) ;;
              if shutdown_during env try then ret (Some e)
              else reconnect_loop fuel' env (try + 1) (Some e)
        end
      else ret err
  end.

(** [m.restart <- 1] is a send on an unbuffered channel: it completes when
    a pulsator receives it.  The trace records the send. *)
Definition reconnect (env : reconnect_env) : M error :=
  locked <- lockRestart (now env) ;;
  if negb locked then ret None
  else
    tell RestartSignal ;;
    _ <- Disconnect (conn_Disconnected env) ;;
    reconnect_loop (Z.to_nat (maxReconnectTries + 2)) env 0 None.

(* ===================================================================== *)
(** * The event handler and the operation demultiplexer *)

Definition sendIdentityPacket : M error :=
  m <- get ;;
  let identityPayload :=
    {| id_Token := Token (conf m);
       id_OS := runtime_GOOS K;
       id_Browser := Browser (conf m);
       id_Device := Device (conf m);
       id_Compress := false;
       id_LargeThreshold := GuildLargeThreshold (conf m);
       id_Shard := if 1 <? ShardCount (conf m)
                   then Some (ShardID (conf m), ShardCount (conf m))
                   else None |} in
  Emit (event_Identify K) (DIdentify identityPayload).

Definition eventHandler (p : discordPacket) : M unit :=
  modify (fun m => set_sequenceNumber (uint_wrap (sequenceNumber m + 1)) m) ;;
  m <- get ;;
  if negb (p_SequenceNumber p =? sequenceNumber m) then
    tell (Log Info "websocket sequence numbers missmatch, forcing reconnect") ;;
    modify (fun m => set_sequenceNumber (uint_wrap (sequenceNumber m - 1)) m) ;;
    tell (Spawn GReconnect)
  else
    dispatch <-
      (if (p_EventName p =? event_Ready K)%string then
         let '(ready, err) := unmarshal_ready (p_Data p) in
         log_if_err Error err ;;
         modify (set_session (SessionID ready) (Trace ready)) ;;
         ret true
       else if (p_EventName p =? event_Resume K)%string then
         ret true
       else if (p_Op p =? opcode.DiscordEvent) && negb (eventOfInterest m (p_EventName p)) then
         ret false
       else
         ret true) ;;
    if dispatch : bool then
      tell (Forward {| Name := p_EventName p; Data := p_Data p |})
    else ret tt.

Definition sendHelloPacket : M unit :=
  tell (Spawn GPulsate) ;;
  m <- get ;;
  if (sessionID m =? "")%string && (sequenceNumber m =? 0) then
    err <- sendIdentityPacket ;;
    log_if_err Error err
  else
    _ <- Emit (event_Resume K)
              (DResume {| rs_Token := Token (conf m);
                          rs_SessionID := sessionID m;
                          rs_SequenceNr := sequenceNumber m |}) ;;
    ret tt.

(** The body of the [for] loop of [operationHandlers] once the [select]
    has delivered packet [p]; [now] is the clock read on a HeartbeatAck. *)
Definition operationHandlers_packet (now : time.Time) (p : discordPacket) : M unit :=
  if p_Op p =? opcode.DiscordEvent then
    eventHandler p
  else if p_Op p =? opcode.Reconnect then
    tell (Log Info "Discord requested a reconnect") ;;
    tell (Spawn GReconnect)
  else if p_Op p =? opcode.InvalidSession then
    tell (Log Info "Discord invalidated session") ;;
    tell (Spawn GInvalidSession)
  else if p_Op p =? opcode.Heartbeat then
    m <- get ;;
    _ <- Emit (event_Heartbeat K) (DUint (sequenceNumber m)) ;;
    ret tt
  else if p_Op p =? opcode.Hello then
    let '(helloPk, err) := unmarshal_hello (p_Data p) in
    log_if_err Debug err ;;
    modify (set_heartbeatInterval (HeartbeatInterval helloPk)) ;;
    sendHelloPacket
  else if p_Op p =? opcode.HeartbeatAck then
    modify (set_lastHeartbeatAck now)
  else
    tell (Log Debug "Unknown operation").

(** The packets the receiver delivers, handled one after the other. *)
Fixpoint operationHandlers_run (now : time.Time) (ps : list discordPacket) : M unit :=
  match ps with
  | [] => ret tt
  | p :: ps' => operationHandlers_packet now p ;; operationHandlers_run now ps'
  end.

(** The goroutine started on InvalidSession; [r] is [rand.Intn(4)]. *)
Definition invalidSession (r : Z) : M unit :=
  m <- get ;;
  let delay := r + 1 in
  let delay := delay * timeoutMultiplier m in
  tell (Sleep (int64_wrap (time.Second * delay))) ;;
  err <- sendIdentityPacket ;;
  log_if_err Error err.

(* ===================================================================== *)
(** * The pulsator *)

Definition AllowedToStartPulsating (serviceID : Z) : M bool :=
  m <- get ;;
  (if pulsating m =? 0 then modify (set_pulsating serviceID) else ret tt) ;;
  m <- get ;;
  ret (pulsating m =? serviceID).

Definition StopPulsating (serviceID : Z) : M unit :=
  m <- get ;;
  if pulsating m =? serviceID then modify (set_pulsating 0) else ret tt.

(** [serviceID := uint8(rand.Intn(254) + 1)]; [r] is [rand.Intn(254)]. *)
Definition pick_serviceID (r : Z) : Z := uint8_wrap (r + 1).

(** The goroutine started by [pulsate] after each beat, from its [select]
    on: [cancelled] tells whether [stopChan] was closed before the
    3-second timer fired. *)
Definition watchdog (last sent : time.Time) (cancelled : bool) (env : reconnect_env)
  : M unit :=
  if cancelled then ret tt
  else
    m <- get ;;
    let receivedHeartbeatAck := time.After (lastHeartbeatAck m) last in
    if negb receivedHeartbeatAck then
      tell (Log Info "heartbeat ACK was not received, forcing reconnect") ;;
      _ <- reconnect env ;;
      ret tt
    else
      modify (fun m => set_heartbeatLatency (time.Sub (lastHeartbeatAck m) sent) m).

(** One turn of the [for] loop of [pulsate] up to its [select]: snapshot,
    heartbeat, watchdog.  [now] is the [time.Now()] handed to the
    watchdog as [sent]. *)
Definition pulsate_beat (now : time.Time) : M unit :=
  m <- get ;;
  let last := lastHeartbeatAck m in
  let snr := sequenceNumber m in
  _ <- Emit (event_Heartbeat K) (DUint snr) ;;
  tell (Spawn (GWatchdog last now)).

(** The exit of [pulsate] on shutdown or restart, with the deferred
    [StopPulsating]. *)
Definition pulsate_exit (serviceID : Z) : M unit :=
  tell (Log Debug "Stopping pulse") ;;
  tell CloseStopChan ;;
  StopPulsating serviceID.

(** Pulsator goroutines next to the client.  [running] lists the service
    ids of the goroutines that went past [AllowedToStartPulsating] and
    have not yet run their deferred [StopPulsating], one entry per
    goroutine. *)
Inductive pulse_action :=
| PStart (serviceID : Z)     (* a new pulsate() goroutine draws serviceID *)
| PExit (serviceID : Z).     (* a running pulsate() goroutine returns *)

Fixpoint remove_one (x : Z) (l : list Z) : list Z :=
  match l with
  | [] => []
  | y :: l' => if x =? y then l' else y :: remove_one x l'
  end.

Definition pulse_step (st : Client * list Z) (a : pulse_action) : Client * list Z :=
  let '(m, running) := st in
  match a with
  | PStart serviceID =>
      let '(allowed, m', _) := AllowedToStartPulsating serviceID m in
      if allowed : bool then (m', serviceID :: running) else (m', running)
  | PExit serviceID =>
      if existsb (Z.eqb serviceID) running then
        let '(_, m', _) := pulsate_exit serviceID m in
        (m', remove_one serviceID running)
      else (m, running)
  end.

Definition pulse_run (st : Client * list Z) (l : list pulse_action) : Client * list Z :=
  fold_left pulse_step l st.

(* ===================================================================== *)
(** * Loops and sequences of calls *)

(** The [for] loop of [emitter] over the deliveries of its [select], one
    per turn, each with the answer [WriteJSON] gives on that turn.  The loop
    ends with the turn that closes the transport; when the deliveries run
    out the goroutine is blocked in the [select]. *)
Fixpoint emitter (deliveries : list (option clientPacket * error)) : M unit :=
  match deliveries with
  | [] => ret tt
  | (received, write_err) :: rest =>
      continue <- emitter_turn received write_err ;;
      if continue : bool then emitter rest else ret tt
  end.

(** Calls of [lockRestart] at the clock values [nows], one after the
    other; the result lists the clock values at which the lock was
    granted. *)
Fixpoint lockRestart_calls (nows : list Z) : M (list Z) :=
  match nows with
  | [] => ret []
  | now :: rest =>
      locked <- lockRestart now ;;
      granted <- lockRestart_calls rest ;;
      ret (if locked : bool then now :: granted else granted)
  end.

(** Calls of [RegisterEvent] and [RemoveEvent]. *)
Inductive track_call :=
| DoRegister (event : string)
| DoRemove (event : string).

Definition track (c : track_call) : M unit :=
  match c with
  | DoRegister event => RegisterEvent event
  | DoRemove event => RemoveEvent event
  end.

Fixpoint track_all (cs : list track_call) : M unit :=
  match cs with
  | [] => ret tt
  | c :: cs' => track c ;; track_all cs'
  end.

(** What can happen to a client: a call of one of its methods, a packet
    reaching the demultiplexer, or a step of one of its goroutines, each
    with what it meets outside. *)
Inductive action :=
| AConnect (env : connect_env)
| ADisconnect (conn_Disconnected : bool)
| AShutdown (conn_Disconnected : bool)
| AEmit (command : string) (data : payload)
| ATrack (c : track_call)
| AHeartbeatLatency
| APacket (now : time.Time) (p : discordPacket)
| AReconnect (env : reconnect_env)
| AInvalidSession (r : Z)
| AAllowedToStartPulsating (serviceID : Z)
| AStopPulsating (serviceID : Z)
| APulsateBeat (now : time.Time)
| APulsateExit (serviceID : Z)
| AWatchdog (last sent : time.Time) (cancelled : bool) (env : reconnect_env)
| AEmitterTurn (received : option clientPacket) (write_err : error).

Definition perform (a : action) : M unit :=
  match a with
  | AConnect env => _ <- Connect env ;; ret tt
  | ADisconnect cd => _ <- Disconnect cd ;; ret tt
  | AShutdown cd => _ <- Shutdown cd ;; ret tt
  | AEmit command data => _ <- Emit command data ;; ret tt
  | ATrack c => track c
  | AHeartbeatLatency => _ <- HeartbeatLatency ;; ret tt
  | APacket now p => operationHandlers_packet now p
  | AReconnect env => _ <- reconnect env ;; ret tt
  | AInvalidSession r => invalidSession r
  | AAllowedToStartPulsating serviceID => _ <- AllowedToStartPulsating serviceID ;; ret tt
  | AStopPulsating serviceID => StopPulsating serviceID
  | APulsateBeat now => pulsate_beat now
  | APulsateExit serviceID => pulsate_exit serviceID
  | AWatchdog last sent cancelled env => watchdog last sent cancelled env
  | AEmitterTurn received write_err => _ <- emitter_turn received write_err ;; ret tt
  end.

Fixpoint perform_all (l : list action) : M unit :=
  match l with
  | [] => ret tt
  | a :: l' => perform a ;; perform_all l'
  end.

End Client.

(* ===================================================================== *)
(** * The receiver *)

Section Receiver.

(** [discordPacket.UnmarshalJSON] is declared outside the sources: the
    packet as the decoder leaves it, and the decoder's error. *)
Variable UnmarshalJSON : list Byte.byte -> discordPacket * error.

(** What one turn of the [for] loop of [receiver] meets outside: the
    answer of [conn.Read()], and whether the shutdown channel is closed
    when the turn polls it. *)
Record read_env := {
  read_result : list Byte.byte * error;
  shutdown_closed : bool
}.

(** What [receiver] does to the outside. *)
Inductive receiver_effect :=
| Deliver (evt : discordPacket)        (* m.receiveChan <- evt *)
| ReceiverLog (l : level) (msg : string).

(** The loop of [receiver] over the turns [reads].  A read error ends it;
    a frame that does not decode is logged and the loop [continue]s, past
    the poll of the shutdown channel; a decoded packet is delivered and
    the shutdown channel is polled.  When the turns run out the goroutine
    is blocked in [conn.Read()]. *)
Fixpoint receiver (reads : list read_env) : list receiver_effect :=
  match reads with
  | [] => []
  | r :: rest =>
      match snd (read_result r) with
      | Some _ => [ReceiverLog Debug "closing readPump"]
      | None =>
          let '(evt, err) := UnmarshalJSON (fst (read_result r)) in
          match err with
          | Some e => ReceiverLog Error e :: receiver rest
          | None =>
              Deliver evt ::
              (if shutdown_closed r then [] else receiver rest)
          end
      end
  end.

(** Whether a frame decodes. *)
Definition decodes (frame : list Byte.byte) : bool :=
  match snd (UnmarshalJSON frame) with
  | None => true
  | Some _ => false
  end.

Fixpoint delivered (t : list receiver_effect) : list discordPacket :=
  match t with
  | [] => []
  | Deliver evt :: t' => evt :: delivered t'
  | _ :: t' => delivered t'
  end.

End Receiver.

(* ===================================================================== *)
(** * Reading a trace *)

Fixpoint forwarded (t : list effect) : list Event :=
  match t with
  | [] => []
  | Forward e :: t' => e :: forwarded t'
  | _ :: t' => forwarded t'
  end.

Fixpoint enqueued (t : list effect) : list clientPacket :=
  match t with
  | [] => []
  | Enqueue c :: t' => c :: enqueued t'
  | _ :: t' => enqueued t'
  end.

Fixpoint spawned (t : list effect) : list goroutine :=
  match t with
  | [] => []
  | Spawn g :: t' => g :: spawned t'
  | _ :: t' => spawned t'
  end.

(** Writes on the transport. *)
Fixpoint written (t : list effect) : list clientPacket :=
  match t with
  | [] => []
  | ConnWriteJSON c :: t' => c :: written t'
  | _ :: t' => written t'
  end.

(** The numbers of the reconnect attempts, as logged. *)
Fixpoint attempts (t : list effect) : list Z :=
  match t with
  | [] => []
  | LogAttempt try :: t' => try :: attempts t'
  | _ :: t' => attempts t'
  end.

(** The waits between reconnect attempts: duration, and whether the
    shutdown channel cut the wait short. *)
Fixpoint waits (t : list effect) : list (time.Duration * bool) :=
  match t with
  | [] => []
  | SleepOrShutdown d s :: t' => (d, s) :: waits t'
  | _ :: t' => waits t'
  end.

(* ===================================================================== *)
(** * Vocabulary of the properties *)

Section Vocabulary.

Context {W : World}.

(** The log line of [eventHandler] on a sequence gap. *)
Definition log_mismatch : effect :=
  Log Info "websocket sequence numbers missmatch, forcing reconnect".

(** Whether [eventHandler] lets an in-sequence packet through. *)
Definition passes (m : Client) (p : discordPacket) : bool :=
  (p_EventName p =? event_Ready K)%string
  || (p_EventName p =? event_Resume K)%string
  || negb (p_Op p =? opcode.DiscordEvent)
  || contains (p_EventName p) (trackedEvents m).

(** The effects of [Emit] are sends on the outbound channel. *)
Definition is_enqueue (e : effect) : Prop :=
  match e with Enqueue _ => True | _ => False end.

(** A value of [time.Now().UnixNano()] after the epoch. *)
Definition unix_nano (t : Z) : Prop := 0 <= t <= int64_max.

(** [time.Second.Nanoseconds() / 2] *)
Definition half_second : Z := 500 * time.Millisecond.

(** The log line of [reconnect] after a [Connect] that succeeded. *)
Definition log_reconnected : effect := Log Info "successfully reconnected".

(** Effects that are neither a log line of the reconnect loop, nor one of
    its waits, nor the restart signal. *)
Definition quiet (e : effect) : Prop :=
  match e with
  | LogAttempt _ | SleepOrShutdown _ _ | Log _ _ | RestartSignal => False
  | _ => True
  end.

(** The wait that follows a failed attempt [try]. *)
Definition wait_of (env : reconnect_env) (try : Z) : time.Duration * bool :=
  ((try + 3) * 2 * time.Second, shutdown_during env try).

(** [try, try+1, ..., try+n-1] *)
Definition upto (try : Z) (n : nat) : list Z :=
  map (fun i => try + Z.of_nat i) (seq 0 n).

(** The shutdown channel stays silent during the waits after the attempts
    of [l]. *)
Definition no_shutdown (env : reconnect_env) (l : list Z) : Prop :=
  Forall (fun t => shutdown_during env t = false) l.

(** The trace of a failed attempt that is followed by a wait. *)
Definition failed_attempt (env : reconnect_env) (try : Z) (e : string)
    (t : list effect) : list effect :=
  LogAttempt try :: t ++
    [LogRetryIn ((try + 3) * 2); LogErr Info e;
     SleepOrShutdown ((try + 3) * 2 * time.Second) (shutdown_during env try)].

(** How a run of the loop that starts at [try] and makes [S n] attempts
    ends: by a [Connect] that succeeds, by the failure of the attempt
    numbered [maxReconnectTries], or by the shutdown channel during a
    wait. *)
Definition loop_outcome (env : reconnect_env) (try : Z) (n : nat)
    (r : error * Client * list effect) : Prop :=
  (result r = None
   /\ In log_reconnected (effects r)
   /\ disconnected (final r) = false
   /\ waits (effects r) = map (wait_of env) (upto try n)
   /\ no_shutdown env (upto try n))
  \/ (result r = Some err_too_many
      /\ ~ In log_reconnected (effects r)
      /\ try + Z.of_nat n = maxReconnectTries
      /\ waits (effects r) = map (wait_of env) (upto try n)
      /\ no_shutdown env (upto try n))
  \/ (exists e,
        result r = Some e
        /\ ~ In log_reconnected (effects r)
        /\ try + Z.of_nat n < maxReconnectTries
        /\ waits (effects r) = map (wait_of env) (upto try (S n))
        /\ no_shutdown env (upto try n)
        /\ shutdown_during env (try + Z.of_nat n) = true).

(** The log line of the watchdog before it calls [reconnect]. *)
Definition log_forcing : effect :=
  Log Info "heartbeat ACK was not received, forcing reconnect".

(** A start is admissible when the id drawn is non-zero and differs from
    the ids of the pulsators that are running. *)
Definition admissible (st : Client * list Z) (a : pulse_action) : Prop :=
  match a with
  | PStart serviceID => serviceID <> 0 /\ ~ In serviceID (snd st)
  | PExit _ => True
  end.

(** Every start of the run is admissible in the state it happens in. *)
Fixpoint admissible_run (st : Client * list Z) (l : list pulse_action) : Prop :=
  match l with
  | [] => True
  | a :: l' => admissible st a /\ admissible_run (pulse_step st a) l'
  end.

(** At most one pulsator runs, it owns the token, and the token is zero
    exactly when none runs. *)
Definition single_flight (st : Client * list Z) : Prop :=
  (snd st = [] /\ pulsating (fst st) = 0)
  \/ (exists serviceID,
        snd st = [serviceID] /\ pulsating (fst st) = serviceID /\ serviceID <> 0).

(** A computation keeps the relation [R] between the client it receives
    and the client it leaves. *)
Definition preserves (R : Client -> Client -> Prop) {A} (c : M A) : Prop :=
  forall m, R m (final (c m)).

(** All the effects of a computation satisfy [P]. *)
Definition emits (P : effect -> Prop) {A} (c : M A) : Prop :=
  forall m, Forall P (effects (c m)).

(** What no method takes back: the configuration apart from the endpoint,
    an endpoint once it is set, the timeout multiplier, and the fact that a
    [Connect] has succeeded. *)
Definition stable (m m' : Client) : Prop :=
  conf m' = set_Endpoint (Endpoint (conf m')) (conf m)
  /\ (Endpoint (conf m) <> ""%string -> Endpoint (conf m') = Endpoint (conf m))
  /\ timeoutMultiplier m' = timeoutMultiplier m
  /\ (haveConnectedOnce m = true -> haveConnectedOnce m' = true).

(** The session as the gateway knows it. *)
Definition same_session (m m' : Client) : Prop :=
  sequenceNumber m' = sequenceNumber m
  /\ sessionID m' = sessionID m
  /\ trace m' = trace m.

(** Effects that are not a write on the transport nor its closing. *)
Definition off_transport (e : effect) : Prop :=
  match e with
  | ConnWriteJSON _ | ConnClose => False
  | _ => True
  end.

Definition is_emitter_turn (a : action) : bool :=
  match a with
  | AEmitterTurn _ _ => true
  | _ => false
  end.

(** The event [eventHandler] builds from a packet. *)
Definition event_of (p : discordPacket) : Event :=
  {| Name := p_EventName p; Data := p_Data p |}.

(** [l1] is [l2] with some elements left out. *)
Inductive subseq {A : Type} : list A -> list A -> Prop :=
| subseq_nil : subseq [] []
| subseq_skip x l1 l2 : subseq l1 l2 -> subseq l1 (x :: l2)
| subseq_keep x l1 l2 : subseq l1 l2 -> subseq (x :: l1) (x :: l2).

(** Each element of [l] is more than 500 ms after the one before it, the
    first one after [prev]. *)
Fixpoint spaced (prev : Z) (l : list Z) : Prop :=
  match l with
  | [] => True
  | x :: l' => half_second < x - prev /\ spaced x l'
  end.

(** A set of event names, and what registering and removing do to it. *)
Definition track_set (interest : string -> bool) (c : track_call) : string -> bool :=
  match c with
  | DoRegister event => fun name => (name =? event)%string || interest name
  | DoRemove event => fun name => negb (name =? event)%string && interest name
  end.

(** The time a trace spends in the waits between reconnect attempts. *)
Definition backoff (t : list effect) : Z :=
  fold_right Z.add 0 (map fst (waits t)).

(** A packet that closes the emitter: nil data and one of the two
    internal opcodes. *)
Definition closes_emitter (c : clientPacket) : bool :=
  match c_Data c with
  | DNil => (c_Op c =? opcode_Shutdown K) || (c_Op c =? opcode_Close K)
  | _ => false
  end.

(** The packets of the deliveries up to the first one that ends the
    emitter (a closing packet, or no packet at all). *)
Fixpoint before_close (deliveries : list (option clientPacket * error))
  : list clientPacket :=
  match deliveries with
  | (Some c, _) :: rest =>
      if closes_emitter c then [] else c :: before_close rest
  | _ => []
  end.

(** Whether some delivery ends the emitter. *)
Fixpoint ends_emitter (deliveries : list (option clientPacket * error)) : bool :=
  match deliveries with
  | [] => false
  | (Some c, _) :: rest => closes_emitter c || ends_emitter rest
  | (None, _) :: _ => true
  end.

Fixpoint closings (t : list effect) : nat :=
  match t with
  | [] => O
  | ConnClose :: t' => S (closings t')
  | _ :: t' => closings t'
  end.

Definition not_forward (e : effect) : Prop :=
  match e with Forward _ => False | _ => True end.

Definition not_enqueue (e : effect) : Prop :=
  match e with Enqueue _ => False | _ => True end.

(** The command and the frame [sendHelloPacket] picks in client [m]. *)
Definition hello_fresh (m : Client) : bool :=
  (sessionID m =? "")%string && (sequenceNumber m =? 0).

Definition identify_frame (m : Client) : clientPacket :=
  {| c_Op := opcode.Identify;
     c_Data := DIdentify
       {| id_Token := Token (conf m);
          id_OS := runtime_GOOS K;
          id_Browser := Browser (conf m);
          id_Device := Device (conf m);
          id_Compress := false;
          id_LargeThreshold := GuildLargeThreshold (conf m);
          id_Shard := if 1 <? ShardCount (conf m)
                      then Some (ShardID (conf m), ShardCount (conf m))
                      else None |} |}.

Definition resume_frame (m : Client) : clientPacket :=
  {| c_Op := opcode.Resume;
     c_Data := DResume
       {| rs_Token := Token (conf m);
          rs_SessionID := sessionID m;
          rs_SequenceNr := sequenceNumber m |} |}.

End Vocabulary.

(* ===================================================================== *)
(** * A world to run the model in *)

Lemma sample_commands_distinct :
  NoDup ["SHUTDOWN"; "CLOSE"; "HEARTBEAT"; "IDENTIFY"; "RESUMED";
         "REQUEST_GUILD_MEMBERS"; "UPDATE_VOICE_STATE"; "UPDATE_STATUS"]%string.
Proof.
  repeat (constructor; [cbn; intuition discriminate|]). constructor.
Qed.

(** Modelled from the spec: the literal values of the constants are not in
    the sources.  The two event names are the specification's READY and
    RESUMED; the command names and the internal opcodes are arbitrary
    distinct values. *)
Definition sample_consts : Consts :=
  {| event_Shutdown := "SHUTDOWN";
     event_Close := "CLOSE";
     event_Heartbeat := "HEARTBEAT";
     event_Identify := "IDENTIFY";
     event_Resume := "RESUMED";
     event_Ready := "READY";
     cmd_RequestGuildMembers := "REQUEST_GUILD_MEMBERS";
     cmd_UpdateVoiceState := "UPDATE_VOICE_STATE";
     cmd_UpdateStatus := "UPDATE_STATUS";
     opcode_Shutdown := 100;
     opcode_Close := 101;
     runtime_GOOS := "linux";
     commands_distinct := sample_commands_distinct |}.

(** A rate limiter with a fixed budget of commands. *)
Definition sample_Request (budget : nat) (command : string) : bool * nat :=
  match budget with
  | O => (false, O)
  | S b => (true, b)
  end.

(** Decoders that answer as for the frames of the specification's
    scenarios: a Hello with interval 45000 and a Ready with session "abc". *)
Definition sample_unmarshal_hello (data : list Byte.byte) : helloPacket * error :=
  ({| HeartbeatInterval := 45000 |}, None).

Definition sample_unmarshal_ready (data : list Byte.byte) : readyPacket * error :=
  ({| SessionID := "abc"; Trace := ["g1"%string] |}, None).

Definition sample_world : World :=
  {| ratelimiter := nat;
     Request := sample_Request;
     unmarshal_hello := sample_unmarshal_hello;
     unmarshal_ready := sample_unmarshal_ready;
     K := sample_consts |}.

Lemma command_names_distinct :
  NoDup ["SHUTDOWN"; "CLOSE"; "HEARTBEAT"; "IDENTIFY"; "RESUME";
         "REQUEST_GUILD_MEMBERS"; "UPDATE_VOICE_STATE"; "UPDATE_STATUS"]%string.
Proof.
  repeat (constructor; [cbn; intuition discriminate|]). constructor.
Qed.

(** A world in which [event.Resume] is what client.go uses it as when it
    sends the Resume frame, the name of the Resume command, "RESUME",
    which is not the name "RESUMED" of the event the gateway dispatches
    after a resume. *)
Definition command_consts : Consts :=
  {| event_Shutdown := "SHUTDOWN";
     event_Close := "CLOSE";
     event_Heartbeat := "HEARTBEAT";
     event_Identify := "IDENTIFY";
     event_Resume := "RESUME";
     event_Ready := "READY";
     cmd_RequestGuildMembers := "REQUEST_GUILD_MEMBERS";
     cmd_UpdateVoiceState := "UPDATE_VOICE_STATE";
     cmd_UpdateStatus := "UPDATE_STATUS";
     opcode_Shutdown := 100;
     opcode_Close := 101;
     runtime_GOOS := "linux";
     commands_distinct := command_names_distinct |}.

Definition command_world : World :=
  {| ratelimiter := nat;
     Request := sample_Request;
     unmarshal_hello := sample_unmarshal_hello;
     unmarshal_ready := sample_unmarshal_ready;
     K := command_consts |}.

Definition sample_config : Config :=
  {| Token := "T"; ChannelBuffer := 0; Endpoint := "wss://gateway";
     Encoding := "json"; Version := 6; Browser := "disgord"; Device := "disgord";
     GuildLargeThreshold := 250; ShardID := 0; ShardCount := 1 |}.

(** A fresh client, and one that has connected and lived through a READY
    and four more events. *)
Definition sample_fresh : @Client sample_world :=
  @NewClient sample_world sample_config 3%nat.

Definition sample_session : @Client sample_world :=
  set_haveConnectedOnce true
    (set_disconnected false
       (set_sequenceNumber 5
          (set_session "abc" ["g1"%string] sample_fresh))).

(** The resumed session in [command_world]: connected, session "abc",
    sequence number 5, nothing registered. *)
Definition resumed_session : @Client command_world :=
  set_haveConnectedOnce true
    (set_disconnected false
       (set_sequenceNumber 5
          (set_session "abc" ["g1"%string]
             (@NewClient command_world sample_config 3%nat)))).

Definition sample_event (s : Z) (name : string) : discordPacket :=
  {| p_Op := opcode.DiscordEvent; p_Data := []; p_SequenceNumber := s;
     p_EventName := name |}.

Definition sample_hello : discordPacket :=
  {| p_Op := opcode.Hello; p_Data := []; p_SequenceNumber := 0; p_EventName := "" |}.

(** A reconnect that starts one second after the epoch: the first five
    calls of [conn.Open] fail, the sixth succeeds; no shutdown. *)
Definition sample_reconnect : reconnect_env :=
  {| now := 1000000000;
     conn_Disconnected := false;
     attempt := fun try =>
       {| route_result := (""%string, None);
          open_result := if try <? 5 then Some "dial failed"%string else None |};
     shutdown_during := fun _ => false |}.

(** A second call of [reconnect], 200 ms after [sample_reconnect]. *)
Definition sample_reconnect_again : reconnect_env :=
  {| now := 1200000000;
     conn_Disconnected := false;
     attempt := attempt sample_reconnect;
     shutdown_during := fun _ => false |}.

(** A frame decoder for runs of the receiver: the empty frame does not
    decode; any other frame decodes to a DiscordEvent packet whose sequence
    number is the length of the frame. *)
Definition sample_UnmarshalJSON (frame : list Byte.byte) : discordPacket * error :=
  match frame with
  | [] => (sample_event 0 "", Some "unexpected end of JSON input"%string)
  | _ => (sample_event (Z.of_nat (List.length frame)) "MESSAGE_CREATE", None)
  end.

Definition sample_read (frame : list Byte.byte) : read_env :=
  {| read_result := (frame, None); shutdown_closed := false |}.

(** Three reads: a frame, a frame that does not decode, a frame. *)
Definition sample_reads : list read_env :=
  [sample_read [Byte.x7b]; sample_read []; sample_read [Byte.x7b; Byte.x7d]].

(** A client that tracks three events. *)
Definition sample_tracking : @Client sample_world :=
  set_trackedEvents ["A"; "B"; "C"]%string sample_session.

(** A connection, a Hello, a command and a reconnect. *)
Definition sample_actions : list action :=
  [AConnect (attempt sample_reconnect 5);
   APacket 0 sample_hello;
   AEmit "HEARTBEAT" (DUint 0);
   AReconnect sample_reconnect].

(* ===================================================================== *)
(** * Properties *)

Section Properties.

Context {W : World}.

Ltac run :=
  cbv beta iota zeta delta
    [bind ret get modify tell log_if_err result final effects].

(** ** Machine arithmetic *)

Lemma uint_modulus_pos : 0 < uint_modulus.
Proof. reflexivity. Qed.

Lemma uint_wrap_small z : is_uint z -> uint_wrap z = z.
Proof. intros H. apply Z.mod_small. exact H. Qed.

Lemma uint_wrap_is_uint z : is_uint (uint_wrap z).
Proof. apply Z.mod_pos_bound. exact uint_modulus_pos. Qed.

(** [n++] followed by [n--] gives [n] back, also across the wrap-around. *)
Lemma uint_incr_decr z : is_uint z -> uint_wrap (uint_wrap (z + 1) - 1) = z.
Proof.
  intros H. unfold uint_wrap.
  rewrite Zminus_mod_idemp_l.
  replace (z + 1 - 1) with z by lia.
  apply Z.mod_small. exact H.
Qed.

Lemma int64_wrap_small z : is_int64 z -> int64_wrap z = z.
Proof.
  unfold is_int64, int64_wrap, int64_min, int64_max. intros H.
  rewrite Z.mod_small; lia.
Qed.

(** ** Setters *)

Lemma set_sequenceNumber_same (m : Client) :
  set_sequenceNumber (sequenceNumber m) m = m.
Proof. destruct m; reflexivity. Qed.

Lemma sequenceNumber_set v (m : Client) :
  sequenceNumber (set_sequenceNumber v m) = v.
Proof. reflexivity. Qed.

Lemma set_sequenceNumber_twice a b (m : Client) :
  set_sequenceNumber a (set_sequenceNumber b m) = set_sequenceNumber a m.
Proof. reflexivity. Qed.

(** ** The event handler *)

Lemma eventHandler_mismatch (p : discordPacket) (m : Client) :
  is_uint (sequenceNumber m) ->
  p_SequenceNumber p <> uint_wrap (sequenceNumber m + 1) ->
  eventHandler p m = (tt, m, [log_mismatch; Spawn GReconnect]).
Proof.
  intros Hu Hne. unfold eventHandler. run.
  rewrite !sequenceNumber_set.
  destruct (Z.eqb_spec (p_SequenceNumber p) (uint_wrap (sequenceNumber m + 1)))
    as [E|_]; [contradiction|].
  cbn [negb app]. rewrite sequenceNumber_set, set_sequenceNumber_twice.
  rewrite uint_incr_decr by exact Hu.
  rewrite set_sequenceNumber_same. reflexivity.
Qed.

Lemma eventHandler_match (p : discordPacket) (m : Client) :
  p_SequenceNumber p = uint_wrap (sequenceNumber m + 1) ->
  let m1 := set_sequenceNumber (uint_wrap (sequenceNumber m + 1)) m in
  let ready := fst (unmarshal_ready (p_Data p)) in
  final (eventHandler p m) =
    (if (p_EventName p =? event_Ready K)%string
     then set_session (SessionID ready) (Trace ready) m1
     else m1)
  /\ forwarded (effects (eventHandler p m)) =
       (if passes m p then [{| Name := p_EventName p; Data := p_Data p |}] else []).
Proof.
  intros Heq. unfold eventHandler, passes, eventOfInterest. run.
  cbn [sequenceNumber set_sequenceNumber trackedEvents].
  rewrite <- Heq, Z.eqb_refl. cbn [negb].
  destruct (p_EventName p =? event_Ready K)%string.
  - destruct (unmarshal_ready (p_Data p)) as [ready [e|]]; cbn; auto.
  - destruct (p_EventName p =? event_Resume K)%string; [cbn; auto|].
    destruct (p_Op p =? opcode.DiscordEvent); cbn [andb orb negb].
    + destruct (contains (p_EventName p) (trackedEvents m)); cbn; auto.
    + cbn; auto.
Qed.

Lemma contains_In name l : contains name l = true <-> In name l.
Proof.
  induction l as [|x l IH]; cbn.
  - split; [discriminate|tauto].
  - destruct (String.eqb_spec name x) as [->|Hne].
    + split; auto.
    + rewrite IH. split; [auto|]. intros [E|H]; [congruence|exact H].
Qed.

Lemma RegisterEvent_tracks (event : string) (m : Client) :
  In event (trackedEvents (final (RegisterEvent event m))).
Proof.
  unfold RegisterEvent. run.
  destruct (contains event (trackedEvents m)) eqn:E; cbn.
  - apply contains_In. exact E.
  - apply in_or_app. right. left. reflexivity.
Qed.

Lemma passes_spec (m : Client) (p : discordPacket) :
  p_Op p = opcode.DiscordEvent ->
  passes m p = true <->
  In (p_EventName p) (trackedEvents m)
  \/ p_EventName p = event_Ready K
  \/ p_EventName p = event_Resume K.
Proof.
  intros Hop. unfold passes. rewrite Hop, Z.eqb_refl. cbn [negb].
  rewrite !orb_true_iff, contains_In.
  destruct (String.eqb_spec (p_EventName p) (event_Ready K));
    destruct (String.eqb_spec (p_EventName p) (event_Resume K));
    intuition discriminate.
Qed.

(** ** Running the monad *)

Lemma final_bind {A B} (c : M A) (k : A -> M B) (m : Client) :
  final (bind c k m) = final (k (result (c m)) (final (c m))).
Proof.
  unfold bind, final, result.
  destruct (c m) as [[a m1] t1]. cbn.
  destruct (k a m1) as [[b m2] t2]. reflexivity.
Qed.

Lemma effects_bind {A B} (c : M A) (k : A -> M B) (m : Client) :
  effects (bind c k m) = effects (c m) ++ effects (k (result (c m)) (final (c m))).
Proof.
  unfold bind, final, result, effects.
  destruct (c m) as [[a m1] t1]. cbn.
  destruct (k a m1) as [[b m2] t2]. reflexivity.
Qed.

Lemma result_bind {A B} (c : M A) (k : A -> M B) (m : Client) :
  result (bind c k m) = result (k (result (c m)) (final (c m))).
Proof.
  unfold bind, final, result.
  destruct (c m) as [[a m1] t1]. cbn.
  destruct (k a m1) as [[b m2] t2]. reflexivity.
Qed.

Lemma operationHandlers_packet_event now (p : discordPacket) (m : Client) :
  p_Op p = opcode.DiscordEvent ->
  operationHandlers_packet now p m = eventHandler p m.
Proof.
  intros Hop. unfold operationHandlers_packet. rewrite Hop. reflexivity.
Qed.

Lemma sequenceNumber_after_match (p : discordPacket) (m : Client) :
  p_SequenceNumber p = uint_wrap (sequenceNumber m + 1) ->
  sequenceNumber (final (eventHandler p m)) = uint_wrap (sequenceNumber m + 1).
Proof.
  intros Heq. destruct (eventHandler_match p m Heq) as [-> _].
  destruct (p_EventName p =? event_Ready K)%string; reflexivity.
Qed.

Lemma run_in_sequence now (ps : list discordPacket) :
  forall (m : Client) (k : nat),
    sequenceNumber m = Z.of_nat k ->
    Forall (fun p => p_Op p = opcode.DiscordEvent) ps ->
    map p_SequenceNumber ps = map Z.of_nat (seq (S k) (List.length ps)) ->
    Z.of_nat (k + List.length ps) < uint_modulus ->
    sequenceNumber (final (operationHandlers_run now ps m)) = Z.of_nat (k + List.length ps).
Proof.
  induction ps as [|p ps IH]; intros m k Hk Hops Hseq Hbound.
  - cbn. rewrite Nat.add_0_r. exact Hk.
  - cbn [operationHandlers_run]. rewrite final_bind.
    inversion Hops as [|? ? Hop Hops']; subst.
    cbn [List.length seq] in Hseq. rewrite !map_cons in Hseq.
    injection Hseq as Hp Hrest.
    change (p_SequenceNumber p = Z.of_nat (S k)) in Hp.
    cbn [List.length] in Hbound |- *.
    rewrite operationHandlers_packet_event by exact Hop.
    assert (Hnext : uint_wrap (sequenceNumber m + 1) = Z.of_nat (S k)).
    { rewrite Hk. replace (Z.of_nat k + 1) with (Z.of_nat (S k)) by lia.
      apply uint_wrap_small. unfold is_uint. lia. }
    replace (k + S (List.length ps))%nat with (S k + List.length ps)%nat in * by lia.
    apply IH.
    + rewrite sequenceNumber_after_match; [exact Hnext|].
      rewrite Hp. symmetry. exact Hnext.
    + exact Hops'.
    + exact Hrest.
    + exact Hbound.
Qed.

(** ** Claims on the event handler *)

(** C1. A DiscordEvent packet whose sequence number is not
    [sequence_number + 1] (as a [uint]) leaves the whole client record as it
    was, the incremented counter included, puts nothing on the event
    channel and starts [reconnect] in a goroutine of its own. *)
Theorem C1_sequence_gap_forces_reconnect now (p : discordPacket) (m : Client) :
  is_uint (sequenceNumber m) ->
  p_Op p = opcode.DiscordEvent ->
  p_SequenceNumber p <> uint_wrap (sequenceNumber m + 1) ->
  let r := operationHandlers_packet now p m in
  r = eventHandler p m
  /\ final r = m
  /\ sequenceNumber (final r) = sequenceNumber m
  /\ forwarded (effects r) = []
  /\ spawned (effects r) = [GReconnect].
Proof.
  intros Hu Hop Hne r. subst r.
  rewrite operationHandlers_packet_event by exact Hop.
  rewrite eventHandler_mismatch by assumption.
  cbn. auto.
Qed.

(** What [eventHandler] compares the name with.  A DiscordEvent packet
    that is in sequence is put on the event channel, as [{name, data}],
    exactly when its name is tracked or equals one of the two constants
    [event.Ready] and [event.Resume]; otherwise nothing is put there.  On
    [event.Ready] the session id and the trace of the decoded payload are
    stored. *)
Lemma eventHandler_forwards_by_name now (p : discordPacket) (m : Client) :
  p_Op p = opcode.DiscordEvent ->
  p_SequenceNumber p = uint_wrap (sequenceNumber m + 1) ->
  let r := operationHandlers_packet now p m in
  let e := {| Name := p_EventName p; Data := p_Data p |} in
  let ready := fst (unmarshal_ready (p_Data p)) in
  let of_interest :=
    In (p_EventName p) (trackedEvents m)
    \/ p_EventName p = event_Ready K
    \/ p_EventName p = event_Resume K in
  (forwarded (effects r) = [e] <-> of_interest)
  /\ (forwarded (effects r) = [] <-> ~ of_interest)
  /\ (p_EventName p = event_Ready K ->
      sessionID (final r) = SessionID ready /\ trace (final r) = Trace ready).
Proof.
  intros Hop Heq r e ready of_interest. subst r.
  rewrite operationHandlers_packet_event by exact Hop.
  destruct (eventHandler_match p m Heq) as [Hfin Hfwd].
  rewrite Hfwd, Hfin.
  pose proof (passes_spec m p Hop) as Hp. fold of_interest in Hp.
  split; [|split].
  - destruct (passes m p).
    + split; [intros _; apply Hp; reflexivity | reflexivity].
    + split; [discriminate|]. intros H. apply Hp in H. discriminate.
  - destruct (passes m p).
    + split; [discriminate|]. intros H. exfalso. apply H, Hp. reflexivity.
    + split; [|reflexivity]. intros _ H. apply Hp in H. discriminate.
  - intros Hready. rewrite Hready, String.eqb_refl. split; reflexivity.
Qed.

(** C3 fails on the code for RESUMED.  [eventHandler] lets two names
    through without registration: [event.Ready], and the constant
    [event.Resume], which is the name client.go gives the Resume command
    when it sends the Resume frame.  Whenever that name is not the
    gateway's event name "RESUMED", a RESUMED event that is in sequence and
    not tracked is dropped: nothing is put on the event channel, while the
    sequence number advances.  A READY event in the same place is
    forwarded, and so is RESUMED once it is registered. *)
Theorem C3_untracked_RESUMED_is_dropped now (p q : discordPacket) (m : Client) :
  event_Resume K <> "RESUMED"%string ->
  event_Ready K <> "RESUMED"%string ->
  p_Op p = opcode.DiscordEvent ->
  p_EventName p = "RESUMED"%string ->
  p_SequenceNumber p = uint_wrap (sequenceNumber m + 1) ->
  ~ In "RESUMED"%string (trackedEvents m) ->
  let r := operationHandlers_packet now p m in
  forwarded (effects r) = []
  /\ sequenceNumber (final r) = uint_wrap (sequenceNumber m + 1)
  /\ (p_Op q = opcode.DiscordEvent ->
      p_EventName q = event_Ready K ->
      p_SequenceNumber q = uint_wrap (sequenceNumber m + 1) ->
      forwarded (effects (operationHandlers_packet now q m))
      = [{| Name := p_EventName q; Data := p_Data q |}])
  /\ forwarded (effects (operationHandlers_packet now p
                           (final (RegisterEvent "RESUMED" m))))
     = [{| Name := "RESUMED"; Data := p_Data p |}].
Proof.
  intros Hresume Hready Hop Hname Hseq Huntracked r. subst r.
  assert (Hpass : passes m p = false).
  { apply not_true_is_false. intros Hp.
    apply (passes_spec m p Hop) in Hp. rewrite Hname in Hp.
    destruct Hp as [H|[H|H]]; [exact (Huntracked H) | | ]; congruence. }
  split; [|split; [|split]].
  - rewrite operationHandlers_packet_event by exact Hop.
    destruct (eventHandler_match p m Hseq) as [_ ->]. rewrite Hpass. reflexivity.
  - rewrite operationHandlers_packet_event by exact Hop.
    apply sequenceNumber_after_match. exact Hseq.
  - intros Hopq Hnameq Hseqq.
    rewrite operationHandlers_packet_event by exact Hopq.
    destruct (eventHandler_match q m Hseqq) as [_ ->].
    unfold passes. rewrite Hnameq, String.eqb_refl. reflexivity.
  - pose proof (RegisterEvent_tracks "RESUMED" m) as Hin.
    assert (Hs : sequenceNumber (final (RegisterEvent "RESUMED" m)) = sequenceNumber m).
    { unfold RegisterEvent.
      cbv beta iota zeta delta [bind ret get modify final].
      destruct (contains "RESUMED" (trackedEvents m)); reflexivity. }
    rewrite operationHandlers_packet_event by exact Hop.
    destruct (eventHandler_match p (final (RegisterEvent "RESUMED" m))) as [_ ->];
      [rewrite Hs; exact Hseq|].
    assert (Hp : passes (final (RegisterEvent "RESUMED" m)) p = true).
    { apply (passes_spec _ p Hop). left. rewrite Hname. exact Hin. }
    rewrite Hp, Hname. reflexivity.
Qed.

(** C9. From a counter at 0, handling N DiscordEvent packets that carry
    the sequence numbers 1, 2, ..., N leaves the counter at N. *)
Theorem C9_counter_counts_events now (ps : list discordPacket) (m : Client) :
  sequenceNumber m = 0 ->
  Forall (fun p => p_Op p = opcode.DiscordEvent) ps ->
  map p_SequenceNumber ps = map Z.of_nat (seq 1 (List.length ps)) ->
  Forall (fun p => is_uint (p_SequenceNumber p)) ps ->
  sequenceNumber (final (operationHandlers_run now ps m)) = Z.of_nat (List.length ps).
Proof.
  intros H0 Hops Hseq Hran.
  apply (run_in_sequence now ps m 0%nat); auto.
  cbn [Nat.add].
  destruct ps as [|p0 ps0] using rev_ind; [reflexivity|].
  apply Forall_app in Hran. destruct Hran as [_ Hlast].
  inversion Hlast as [|? ? Hu _]; subst.
  assert (Hp : p_SequenceNumber p0 = Z.of_nat (List.length (ps0 ++ [p0]))).
  { rewrite length_app in *. cbn [List.length] in *.
    rewrite Nat.add_1_r in *. rewrite seq_S, !map_app in Hseq.
    apply app_inj_tail in Hseq. destruct Hseq as [_ Hseq]. exact Hseq. }
  rewrite <- Hp. apply Hu.
Qed.

(** ** Emit *)

Lemma lookup_In command op table :
  NoDup (map fst table) ->
  lookup command table = Some op <-> In (command, op) table.
Proof.
  induction table as [|[name op'] table IH]; cbn [lookup map fst In]; intros Hnd.
  - split; [discriminate|tauto].
  - inversion Hnd as [|? ? Hnotin Hnd']; subst.
    destruct (String.eqb_spec command name) as [->|Hne].
    + split.
      * intros [= ->]. left. reflexivity.
      * intros [[= ->]|Hin]; [reflexivity|].
        exfalso. apply Hnotin. apply (in_map fst) in Hin. exact Hin.
    + rewrite (IH Hnd'). split; [auto|].
      intros [[= E _]|Hin]; [congruence|exact Hin].
Qed.

Lemma lookup_None command table :
  lookup command table = None <-> ~ In command (map fst table).
Proof.
  induction table as [|[name op'] table IH]; cbn [lookup map fst In].
  - tauto.
  - destruct (String.eqb_spec command name) as [->|Hne].
    + split; [discriminate|]. intros H. exfalso. apply H. left. reflexivity.
    + rewrite IH. split; [|tauto]. intros H [E|Hin]; [congruence|tauto].
Qed.

(** The [switch] of [Emit] is the first-match lookup in the table. *)
Lemma command_opcode_lookup command :
  command_opcode command = lookup command command_table.
Proof. reflexivity. Qed.

Lemma command_table_NoDup : NoDup (map fst command_table).
Proof. exact (commands_distinct K). Qed.

Lemma command_opcode_In command op :
  command_opcode command = Some op <-> In (command, op) command_table.
Proof.
  rewrite command_opcode_lookup. apply lookup_In, command_table_NoDup.
Qed.

Lemma Emit_not_connected command data (m : Client) :
  haveConnectedOnce m = false ->
  Emit command data m = (Some err_not_connected, m, []).
Proof. intros H. unfold Emit. run. rewrite H. reflexivity. Qed.

Lemma Emit_unsupported command data (m : Client) :
  haveConnectedOnce m = true ->
  command_opcode command = None ->
  Emit command data m = (Some (err_unsupported command), m, []).
Proof. intros H Hc. unfold Emit. run. rewrite H, Hc. reflexivity. Qed.

Lemma Emit_supported command op data (m : Client) :
  haveConnectedOnce m = true ->
  command_opcode command = Some op ->
  Emit command data m =
    (if fst (Request (ratelimit m) command)
     then (None, set_ratelimit (snd (Request (ratelimit m) command)) m,
           [Enqueue {| c_Op := op; c_Data := data |}])
     else (Some err_rate_limited,
           set_ratelimit (snd (Request (ratelimit m) command)) m, [])).
Proof.
  intros H Hc. unfold Emit. run. rewrite H, Hc. cbn [negb].
  destruct (Request (ratelimit m) command) as [[|] rl]; reflexivity.
Qed.

(** What [Emit] puts on the outbound channel, in every case. *)
Lemma Emit_enqueued command data (m : Client) :
  enqueued (effects (Emit command data m)) =
    match command_opcode command with
    | Some op =>
        if haveConnectedOnce m && fst (Request (ratelimit m) command)
        then [{| c_Op := op; c_Data := data |}]
        else []
    | None => []
    end.
Proof.
  destruct (haveConnectedOnce m) eqn:H.
  - destruct (command_opcode command) as [op|] eqn:Hc.
    + rewrite (Emit_supported command op data m H Hc). cbn [andb].
      destruct (fst (Request (ratelimit m) command)); reflexivity.
    + rewrite (Emit_unsupported command data m H Hc). reflexivity.
  - rewrite (Emit_not_connected command data m H).
    destruct (command_opcode command); reflexivity.
Qed.

Lemma Emit_written command data (m : Client) :
  written (effects (Emit command data m)) = [].
Proof.
  destruct (haveConnectedOnce m) eqn:H.
  - destruct (command_opcode command) as [op|] eqn:Hc.
    + rewrite (Emit_supported command op data m H Hc).
      destruct (fst (Request (ratelimit m) command)); reflexivity.
    + rewrite (Emit_unsupported command data m H Hc). reflexivity.
  - rewrite (Emit_not_connected command data m H). reflexivity.
Qed.

(** The transport is written by the emitter, one packet of the outbound
    channel at a time; the internal Shutdown and Close packets with nil data
    close it instead. *)
Lemma emitter_turn_written received write_err (m : Client) :
  written (effects (emitter_turn received write_err m)) =
    match received with
    | Some msg =>
        match c_Data msg with
        | DNil =>
            if (c_Op msg =? opcode_Shutdown K) || (c_Op msg =? opcode_Close K)
            then [] else [msg]
        | _ => [msg]
        end
    | None => []
    end.
Proof.
  unfold emitter_turn. run.
  destruct received as [msg|]; [|reflexivity].
  destruct (c_Data msg); cbn [andb];
    try destruct ((c_Op msg =? opcode_Shutdown K) || (c_Op msg =? opcode_Close K));
    destruct write_err; reflexivity.
Qed.

(** C8, as the code has it.  [Emit] first refuses with the not-connected
    error whenever no [Connect] has succeeded, whatever the command; once
    connected it refuses a command outside the table with the
    unsupported-command error; for a command of the table it asks the rate
    limiter and either refuses with the rate-limited error or puts exactly
    one packet [{op, data}], with the table's opcode, on the outbound
    channel.  It never writes on the transport. *)
Theorem C8_emit_gates command data (m : Client) :
  let r := Emit command data m in
  let accepted := fst (Request (ratelimit m) command) in
  let m' := set_ratelimit (snd (Request (ratelimit m) command)) m in
  (haveConnectedOnce m = false -> r = (Some err_not_connected, m, []))
  /\ (haveConnectedOnce m = true ->
      ~ In command (map fst command_table) ->
      r = (Some (err_unsupported command), m, []))
  /\ (forall op,
        haveConnectedOnce m = true ->
        In (command, op) command_table ->
        (accepted = false -> r = (Some err_rate_limited, m', []))
        /\ (accepted = true ->
            r = (None, m', [Enqueue {| c_Op := op; c_Data := data |}])))
  /\ written (effects r) = [].
Proof.
  intros r accepted m'. subst r accepted m'.
  split; [|split; [|split]].
  - apply Emit_not_connected.
  - intros H Hnot. apply Emit_unsupported; [exact H|].
    rewrite command_opcode_lookup. apply lookup_None. exact Hnot.
  - intros op H Hin. apply command_opcode_In in Hin.
    rewrite (Emit_supported command op data m H Hin).
    split; intros ->; reflexivity.
  - apply Emit_written.
Qed.

(** ** The Hello handshake *)

Lemma command_opcode_Identify : command_opcode (event_Identify K) = Some opcode.Identify.
Proof.
  apply command_opcode_In. unfold command_table.
  right; right; right; left. reflexivity.
Qed.

Lemma command_opcode_Resume : command_opcode (event_Resume K) = Some opcode.Resume.
Proof.
  apply command_opcode_In. unfold command_table.
  right; right; right; right; left. reflexivity.
Qed.

Lemma command_opcode_Close : command_opcode (event_Close K) = Some (opcode_Close K).
Proof.
  apply command_opcode_In. unfold command_table.
  right; left. reflexivity.
Qed.

Lemma command_opcode_Heartbeat : command_opcode (event_Heartbeat K) = Some opcode.Heartbeat.
Proof.
  apply command_opcode_In. unfold command_table.
  right; right; left. reflexivity.
Qed.

Lemma operationHandlers_packet_hello now (p : discordPacket) (m : Client) :
  p_Op p = opcode.Hello ->
  operationHandlers_packet now p m =
    (let '(helloPk, err) := unmarshal_hello (p_Data p) in
     bind (log_if_err Debug err)
       (fun _ => bind (modify (set_heartbeatInterval (HeartbeatInterval helloPk)))
                   (fun _ => sendHelloPacket))) m.
Proof.
  intros Hop. unfold operationHandlers_packet. rewrite Hop. reflexivity.
Qed.

(** C2, as the code has it.  On a Hello packet the client stores the
    heartbeat interval of the decoded payload, starts a pulsator goroutine
    and hands exactly one command to [Emit]: Identify when the session id
    is empty and the sequence number is 0, otherwise Resume with the
    payload [{token, session_id, seq}] of the configuration and the
    session.  The frame of that command is the only frame put on the
    outbound channel, and it is put there when [Connect] has succeeded once
    and the rate limiter admits the command; otherwise no frame is sent. *)
Theorem C2_hello_identify_or_resume now (p : discordPacket) (m : Client) :
  p_Op p = opcode.Hello ->
  let r := operationHandlers_packet now p m in
  let fresh := (sessionID m =? "")%string && (sequenceNumber m =? 0) in
  let command := if fresh then event_Identify K else event_Resume K in
  let frame :=
    if fresh then
      {| c_Op := opcode.Identify;
         c_Data := DIdentify
           {| id_Token := Token (conf m);
              id_OS := runtime_GOOS K;
              id_Browser := Browser (conf m);
              id_Device := Device (conf m);
              id_Compress := false;
              id_LargeThreshold := GuildLargeThreshold (conf m);
              id_Shard := if 1 <? ShardCount (conf m)
                          then Some (ShardID (conf m), ShardCount (conf m))
                          else None |} |}
    else
      {| c_Op := opcode.Resume;
         c_Data := DResume
           {| rs_Token := Token (conf m);
              rs_SessionID := sessionID m;
              rs_SequenceNr := sequenceNumber m |} |} in
  heartbeatInterval (final r) = HeartbeatInterval (fst (unmarshal_hello (p_Data p)))
  /\ spawned (effects r) = [GPulsate]
  /\ enqueued (effects r) =
       (if haveConnectedOnce m && fst (Request (ratelimit m) command)
        then [frame] else []).
Proof.
  intros Hop r fresh command frame. subst r fresh command frame.
  rewrite operationHandlers_packet_hello by exact Hop.
  destruct (unmarshal_hello (p_Data p)) as [helloPk err]. cbn [fst].
  unfold sendHelloPacket, sendIdentityPacket, Emit.
  rewrite command_opcode_Identify, command_opcode_Resume.
  destruct err; run;
    cbn [sessionID sequenceNumber set_heartbeatInterval];
    (destruct ((sessionID m =? "")%string && (sequenceNumber m =? 0)); run;
     cbn [haveConnectedOnce ratelimit conf set_heartbeatInterval];
     (destruct (haveConnectedOnce m);
      [ cbn [negb andb]; run;
        destruct (Request (ratelimit m) _) as [[|] rl]; run; cbn; auto
      | cbn; auto ])).
Qed.

(** ** Disconnect *)

(** C10. When the transport reports disconnected, or no [Connect] has
    succeeded yet, [Disconnect] answers "already disconnected", still sets
    the disconnected flag, and puts no Close frame (indeed nothing) on the
    outbound channel. *)
Theorem C10_disconnect_when_not_connected (conn_Disconnected : bool) (m : Client) :
  conn_Disconnected = true \/ haveConnectedOnce m = false ->
  let r := Disconnect conn_Disconnected m in
  result r = Some err_already_disconnected
  /\ final r = set_disconnected true m
  /\ disconnected (final r) = true
  /\ enqueued (effects r) = []
  /\ effects r = [].
Proof.
  intros H r. subst r. unfold Disconnect. run.
  assert (E : conn_Disconnected || negb (haveConnectedOnce m) = true).
  { destruct H as [-> | ->]; [reflexivity | apply orb_true_r]. }
  rewrite E. cbn. auto.
Qed.

(** ** Connect and Disconnect, unfolded *)

Lemma Connect_unfold (env : connect_env) (m : Client) :
  Connect env m =
    if negb (disconnected m) then (Some err_already_connected, m, [])
    else
      let discover := (Endpoint (conf m) =? "")%string in
      let m1 := if discover
                then set_conf (set_Endpoint (fst (route_result env)) (conf m)) m
                else m in
      let t1 := if discover then [GetGatewayRoute (Version (conf m))] else [] in
      match (if discover then snd (route_result env) else None) with
      | Some e => (Some e, m1, t1)
      | None =>
          match open_result env with
          | Some e => (Some e, m1, t1 ++ [ConnOpen (Endpoint (conf m1))])
          | None =>
              (None, set_disconnected false (set_haveConnectedOnce true m1),
               t1 ++ [ConnOpen (Endpoint (conf m1)); Spawn GReceiver; Spawn GEmitter])
          end
      end.
Proof.
  unfold Connect. run.
  destruct (disconnected m); cbn [negb]; [|reflexivity].
  destruct (Endpoint (conf m) =? "")%string; run.
  - destruct (snd (route_result env)); [reflexivity|].
    destruct (open_result env); reflexivity.
  - destruct (open_result env); reflexivity.
Qed.

Lemma Disconnect_unfold (cd : bool) (m : Client) :
  Disconnect cd m =
    if cd || negb (haveConnectedOnce m)
    then (Some err_already_disconnected, set_disconnected true m, [])
    else
      let r := Emit (event_Close K) DNil m in
      (None, set_disconnected true (final r),
       effects r ++ [Sleep (int64_wrap (time.Second * 1 * timeoutMultiplier m));
                     Sleep (time.Millisecond * 10)]).
Proof.
  unfold Disconnect. run.
  destruct (cd || negb (haveConnectedOnce m)); [reflexivity|].
  destruct (Emit (event_Close K) DNil m) as [[e m1] t1]. reflexivity.
Qed.

(** [Emit] touches the rate limiter and nothing else. *)
Lemma Emit_final command data (m : Client) :
  exists rl, final (Emit command data m) = set_ratelimit rl m.
Proof.
  destruct (haveConnectedOnce m) eqn:H.
  - destruct (command_opcode command) as [op|] eqn:Hc.
    + rewrite (Emit_supported command op data m H Hc).
      destruct (fst (Request (ratelimit m) command)); eexists; reflexivity.
    + rewrite (Emit_unsupported command data m H Hc).
      exists (ratelimit m). destruct m; reflexivity.
  - rewrite (Emit_not_connected command data m H).
    exists (ratelimit m). destruct m; reflexivity.
Qed.

Lemma Emit_effects command data (m : Client) :
  Forall is_enqueue (effects (Emit command data m)).
Proof.
  destruct (haveConnectedOnce m) eqn:H.
  - destruct (command_opcode command) as [op|] eqn:Hc.
    + rewrite (Emit_supported command op data m H Hc).
      destruct (fst (Request (ratelimit m) command)); repeat constructor.
    + rewrite (Emit_unsupported command data m H Hc). constructor.
  - rewrite (Emit_not_connected command data m H). constructor.
Qed.

(** ** The restart lock *)

Lemma lockRestart_unfold (now : Z) (m : Client) :
  unix_nano now -> unix_nano (lastRestart m) ->
  lockRestart now m =
    if half_second <? now - lastRestart m
    then (true, set_lastRestart now m, [])
    else (false, m, []).
Proof.
  unfold unix_nano. intros Hn Hl. unfold lockRestart. run.
  rewrite int64_wrap_small
    by (unfold is_int64, int64_min, int64_max in *; lia).
  change (time.Second / 2) with half_second.
  destruct (half_second <? now - lastRestart m); reflexivity.
Qed.

Lemma lockRestart_effects (now : Z) (m : Client) :
  effects (lockRestart now m) = [].
Proof.
  unfold lockRestart. run.
  destruct (time.Second / 2 <? int64_wrap (now - lastRestart m)); reflexivity.
Qed.

Lemma lockRestart_refused (now : Z) (m : Client) :
  result (lockRestart now m) = false -> final (lockRestart now m) = m.
Proof.
  unfold lockRestart. run.
  destruct (time.Second / 2 <? int64_wrap (now - lastRestart m));
    [discriminate|reflexivity].
Qed.

Lemma lockRestart_granted (now : Z) (m : Client) :
  result (lockRestart now m) = true ->
  final (lockRestart now m) = set_lastRestart now m.
Proof.
  unfold lockRestart. run.
  destruct (time.Second / 2 <? int64_wrap (now - lastRestart m));
    [reflexivity|discriminate].
Qed.

(** ** Traces of the reconnect controller *)

Lemma attempts_app t1 t2 : attempts (t1 ++ t2) = attempts t1 ++ attempts t2.
Proof.
  induction t1 as [|e t1 IH]; [reflexivity|].
  destruct e; cbn; rewrite ?IH; reflexivity.
Qed.

Lemma waits_app t1 t2 : waits (t1 ++ t2) = waits t1 ++ waits t2.
Proof.
  induction t1 as [|e t1 IH]; [reflexivity|].
  destruct e; cbn; rewrite ?IH; reflexivity.
Qed.

Lemma quiet_attempts t : Forall quiet t -> attempts t = [].
Proof.
  induction 1 as [|e t He _ IH]; [reflexivity|].
  destruct e; cbn in *; tauto.
Qed.

Lemma quiet_waits t : Forall quiet t -> waits t = [].
Proof.
  induction 1 as [|e t He _ IH]; [reflexivity|].
  destruct e; cbn in *; tauto.
Qed.

Lemma quiet_not_in t e : Forall quiet t -> ~ quiet e -> ~ In e t.
Proof.
  intros Hq Hne Hin. rewrite Forall_forall in Hq. exact (Hne (Hq e Hin)).
Qed.

Lemma enqueue_quiet t : Forall is_enqueue t -> Forall quiet t.
Proof.
  apply Forall_impl. intros e. destruct e; cbn; tauto.
Qed.

Lemma Connect_quiet (env : connect_env) (m : Client) :
  Forall quiet (effects (Connect env m)).
Proof.
  rewrite Connect_unfold.
  destruct (disconnected m); cbn [negb]; [|constructor].
  cbv zeta.
  destruct (Endpoint (conf m) =? "")%string;
    [destruct (snd (route_result env))|];
    try destruct (open_result env); cbn; repeat constructor.
Qed.

Lemma Connect_lastRestart (env : connect_env) (m : Client) :
  lastRestart (final (Connect env m)) = lastRestart m.
Proof.
  rewrite Connect_unfold.
  destruct (disconnected m); cbn [negb]; [|reflexivity].
  cbv zeta.
  destruct (Endpoint (conf m) =? "")%string;
    [destruct (snd (route_result env))|];
    try destruct (open_result env); reflexivity.
Qed.

(** [Connect] answers nil only after it has opened the transport and set
    the flags. *)
Lemma Connect_nil (env : connect_env) (m : Client) :
  result (Connect env m) = None ->
  disconnected (final (Connect env m)) = false
  /\ haveConnectedOnce (final (Connect env m)) = true.
Proof.
  rewrite Connect_unfold.
  destruct (disconnected m); cbn [negb]; [|discriminate].
  cbv zeta.
  destruct (Endpoint (conf m) =? "")%string;
    [destruct (snd (route_result env))|];
    try destruct (open_result env); cbn; try discriminate; auto.
Qed.

Lemma Disconnect_quiet (cd : bool) (m : Client) :
  Forall quiet (effects (Disconnect cd m)).
Proof.
  rewrite Disconnect_unfold.
  destruct (cd || negb (haveConnectedOnce m)); [constructor|].
  cbv zeta. cbn [effects snd].
  apply Forall_app. split.
  - apply enqueue_quiet, Emit_effects.
  - repeat constructor.
Qed.

Lemma Disconnect_lastRestart (cd : bool) (m : Client) :
  lastRestart (final (Disconnect cd m)) = lastRestart m.
Proof.
  rewrite Disconnect_unfold.
  destruct (cd || negb (haveConnectedOnce m)); [reflexivity|].
  cbv zeta. cbn [final fst snd].
  destruct (Emit_final (event_Close K) DNil m) as [rl ->]. reflexivity.
Qed.

(** ** The reconnect loop *)

Lemma upto_S try n : upto try (S n) = try :: upto (try + 1) n.
Proof.
  unfold upto. cbn [seq map]. f_equal; [cbn; lia|].
  rewrite <- seq_shift, map_map. apply map_ext. intros i. lia.
Qed.

Lemma reconnect_loop_S fuel (env : reconnect_env) try err (m : Client) :
  try <= maxReconnectTries ->
  reconnect_loop (S fuel) env try err m =
    let c := Connect (attempt env try) m in
    match result c with
    | None => (None, final c, LogAttempt try :: effects c ++ [log_reconnected])
    | Some e =>
        if try =? maxReconnectTries
        then (Some err_too_many, final c, LogAttempt try :: effects c)
        else if shutdown_during env try
        then (Some e, final c, failed_attempt env try e (effects c))
        else
          let r := reconnect_loop fuel env (try + 1) (Some e) (final c) in
          (result r, final r, failed_attempt env try e (effects c) ++ effects r)
    end.
Proof.
  intros Hle. cbn [reconnect_loop]. unfold failed_attempt.
  apply Z.leb_le in Hle. rewrite Hle. run.
  destruct (Connect (attempt env try) m) as [[[e|] m1] t1]; cbn [fst snd].
  - destruct (try =? maxReconnectTries).
    + cbn. rewrite app_nil_r. reflexivity.
    + destruct (shutdown_during env try).
      * cbn. reflexivity.
      * destruct (reconnect_loop fuel env (try + 1) (Some e) m1) as [[e2 m2] t2].
        cbn. rewrite <- !app_assoc. reflexivity.
  - reflexivity.
Qed.

Lemma failed_attempt_attempts env try e t :
  Forall quiet t -> attempts (failed_attempt env try e t) = [try].
Proof.
  intros Hq. unfold failed_attempt. cbn [attempts].
  rewrite attempts_app, (quiet_attempts t Hq). reflexivity.
Qed.

Lemma failed_attempt_waits env try e t :
  Forall quiet t -> waits (failed_attempt env try e t) = [wait_of env try].
Proof.
  intros Hq. unfold failed_attempt. cbn [waits].
  rewrite waits_app, (quiet_waits t Hq). reflexivity.
Qed.

Lemma failed_attempt_not_reconnected env try e t :
  Forall quiet t -> ~ In log_reconnected (failed_attempt env try e t).
Proof.
  intros Hq. unfold failed_attempt. cbn [In]. rewrite in_app_iff. cbn [In].
  intros [H|[H|[H|[H|[H|[]]]]]]; try discriminate.
  revert H. apply quiet_not_in; [exact Hq|]. cbn. tauto.
Qed.

Lemma no_shutdown_cons env try l :
  shutdown_during env try = false -> no_shutdown env l -> no_shutdown env (try :: l).
Proof. intros H Hl. constructor; assumption. Qed.

Lemma reconnect_loop_spec (env : reconnect_env) fuel :
  forall try err (m : Client),
    0 <= try <= maxReconnectTries ->
    (Z.to_nat (maxReconnectTries + 1 - try) <= fuel)%nat ->
    let r := reconnect_loop fuel env try err m in
    exists n : nat,
      attempts (effects r) = upto try (S n)
      /\ try + Z.of_nat n <= maxReconnectTries
      /\ lastRestart (final r) = lastRestart m
      /\ loop_outcome env try n r.
Proof.
  induction fuel as [|fuel IH]; intros try err m Htry Hfuel.
  - exfalso. unfold maxReconnectTries in *. lia.
  - cbv zeta. rewrite reconnect_loop_S by apply Htry. cbv zeta.
    pose proof (Connect_quiet (attempt env try) m) as Hq.
    pose proof (Connect_lastRestart (attempt env try) m) as Hl.
    pose proof (Connect_nil (attempt env try) m) as Hnil.
    destruct (result (Connect (attempt env try) m)) as [e|].
    + destruct (Z.eqb_spec try maxReconnectTries) as [Emax|Hlt].
      * (* the attempt numbered maxReconnectTries fails *)
        exists 0%nat. cbn [effects final result fst snd attempts].
        rewrite (quiet_attempts _ Hq).
        repeat split; [cbn; f_equal; lia | lia | exact Hl |].
        right. left. cbn [effects final result fst snd waits In].
        rewrite (quiet_waits _ Hq).
        repeat split; [| lia | constructor].
        intros [H|H]; [discriminate|].
        revert H. apply quiet_not_in; [exact Hq | cbn; tauto].
      * destruct (shutdown_during env try) eqn:Hs.
        -- (* the shutdown channel fires during the wait *)
           exists 0%nat. cbn [effects final result fst snd].
           rewrite failed_attempt_attempts by exact Hq.
           repeat split; [cbn; f_equal; lia | lia | exact Hl |].
           right. right. exists e. cbn [effects final result fst snd].
           rewrite failed_attempt_waits by exact Hq.
           repeat split.
           ++ exact (failed_attempt_not_reconnected env try e _ Hq).
           ++ lia.
           ++ cbn. unfold wait_of. repeat f_equal; lia.
           ++ constructor.
           ++ rewrite Z.add_0_r. exact Hs.
        -- (* the wait elapses and the loop goes on *)
           destruct (IH (try + 1) (Some e) (final (Connect (attempt env try) m)))
             as (n & Hatt & Hn & Hlast & Hout); [lia | lia |].
           exists (S n). cbn [effects final result fst snd].
           rewrite attempts_app, failed_attempt_attempts, Hatt by exact Hq.
           repeat split.
           ++ rewrite (upto_S try (S n)). reflexivity.
           ++ lia.
           ++ rewrite Hlast. exact Hl.
           ++ pose proof (failed_attempt_not_reconnected env try e _ Hq) as Hnot.
              pose proof (failed_attempt_waits env try e _ Hq) as Hfw.
              assert (Hplus : try + Z.of_nat (S n) = try + 1 + Z.of_nat n) by lia.
              destruct Hout as [(Hr & Hin & Hd & Hw & Hns)
                               |[(Hr & Hin & Hmax & Hw & Hns)
                                |(e' & Hr & Hin & Hmax & Hw & Hns & Hsd)]].
              ** left. cbn [effects final result fst snd].
                 rewrite waits_app, Hfw, Hw, in_app_iff, (upto_S try).
                 repeat split; auto. apply no_shutdown_cons; assumption.
              ** right. left. cbn [effects final result fst snd].
                 rewrite waits_app, Hfw, Hw, in_app_iff, (upto_S try), Hplus.
                 split; [exact Hr|].
                 split; [intros Hor; destruct Hor as [H|H];
                         [exact (Hnot H) | exact (Hin H)]|].
                 split; [exact Hmax|].
                 split; [reflexivity | apply no_shutdown_cons; assumption].
              ** right. right. exists e'. cbn [effects final result fst snd].
                 rewrite waits_app, Hfw, Hw, in_app_iff, (upto_S try (S n)),
                   (upto_S try n), Hplus.
                 split; [exact Hr|].
                 split; [intros Hor; destruct Hor as [H|H];
                         [exact (Hnot H) | exact (Hin H)]|].
                 split; [exact Hmax|].
                 split; [reflexivity|].
                 split; [apply no_shutdown_cons; assumption | exact Hsd].
    + (* Connect succeeds *)
      destruct (Hnil eq_refl) as [Hd _].
      exists 0%nat. cbn [effects final result fst snd attempts].
      rewrite attempts_app, (quiet_attempts _ Hq).
      repeat split; [cbn; f_equal; lia | lia | exact Hl |].
      left. cbn [effects final result fst snd waits In].
      rewrite waits_app, (quiet_waits _ Hq).
      repeat split; [| exact Hd | constructor].
      right. apply in_or_app. right. left. reflexivity.
Qed.

(** The loop never runs out of fuel: any bound that covers the remaining
    values of [try] gives the same run. *)
Lemma reconnect_loop_fuel (env : reconnect_env) fuel1 :
  forall fuel2 try err (m : Client),
    0 <= try <= maxReconnectTries ->
    (Z.to_nat (maxReconnectTries + 1 - try) <= fuel1)%nat ->
    (Z.to_nat (maxReconnectTries + 1 - try) <= fuel2)%nat ->
    reconnect_loop fuel1 env try err m = reconnect_loop fuel2 env try err m.
Proof.
  induction fuel1 as [|fuel1 IH]; intros fuel2 try err m Htry H1 H2.
  - exfalso. unfold maxReconnectTries in *. lia.
  - destruct fuel2 as [|fuel2]; [exfalso; unfold maxReconnectTries in *; lia|].
    rewrite !reconnect_loop_S by apply Htry. cbv zeta.
    destruct (result (Connect (attempt env try) m)) as [e|]; [|reflexivity].
    destruct (Z.eqb_spec try maxReconnectTries) as [Emax|Hlt]; [reflexivity|].
    destruct (shutdown_during env try); [reflexivity|].
    rewrite (IH fuel2 (try + 1) (Some e) (final (Connect (attempt env try) m)));
      [reflexivity | lia | lia | lia].
Qed.

Lemma reconnect_unfold (env : reconnect_env) (m : Client) :
  reconnect env m =
    let k := lockRestart (now env) m in
    if result k then
      let d := Disconnect (conn_Disconnected env) (final k) in
      let l := reconnect_loop (Z.to_nat (maxReconnectTries + 2)) env 0 None (final d) in
      (result l, final l, RestartSignal :: effects d ++ effects l)
    else (None, m, []).
Proof.
  pose proof (lockRestart_effects (now env) m) as He.
  pose proof (lockRestart_refused (now env) m) as Hr.
  unfold reconnect. run.
  destruct (lockRestart (now env) m) as [[[|] m1] t1];
    cbn [effects result final fst snd negb] in *; subst t1.
  - destruct (Disconnect (conn_Disconnected env) m1) as [[e2 m2] t2].
    cbn [fst snd].
    destruct (reconnect_loop (Z.to_nat (maxReconnectTries + 2)) env 0 None m2)
      as [[e3 m3] t3].
    reflexivity.
  - rewrite (Hr eq_refl). reflexivity.
Qed.

(** A [reconnect] that gets the restart lock: the trace is the restart
    signal, then [Disconnect], then the loop. *)
Lemma reconnect_granted (env : reconnect_env) (m : Client) :
  result (lockRestart (now env) m) = true ->
  let d := Disconnect (conn_Disconnected env) (set_lastRestart (now env) m) in
  let l := reconnect_loop (Z.to_nat (maxReconnectTries + 2)) env 0 None (final d) in
  reconnect env m = (result l, final l, RestartSignal :: effects d ++ effects l).
Proof.
  intros Hk. rewrite reconnect_unfold. cbv zeta.
  rewrite Hk, (lockRestart_granted _ _ Hk). reflexivity.
Qed.

Lemma reconnect_refused (env : reconnect_env) (m : Client) :
  result (lockRestart (now env) m) = false ->
  reconnect env m = (None, m, []).
Proof.
  intros Hk. rewrite reconnect_unfold. cbv zeta. rewrite Hk. reflexivity.
Qed.

(** What a [reconnect] that gets the lock does, read off its trace. *)
Lemma reconnect_granted_spec (env : reconnect_env) (m : Client) :
  result (lockRestart (now env) m) = true ->
  let r := reconnect env m in
  In RestartSignal (effects r)
  /\ lastRestart (final r) = now env
  /\ exists n : nat,
       attempts (effects r) = upto 0 (S n)
       /\ Z.of_nat n <= maxReconnectTries
       /\ loop_outcome env 0 n r.
Proof.
  intros Hk. cbv zeta. rewrite (reconnect_granted env m Hk). cbv zeta.
  set (d := Disconnect (conn_Disconnected env) (set_lastRestart (now env) m)).
  pose proof (Disconnect_quiet (conn_Disconnected env) (set_lastRestart (now env) m))
    as Hq. fold d in Hq.
  pose proof (Disconnect_lastRestart (conn_Disconnected env) (set_lastRestart (now env) m))
    as Hl. fold d in Hl.
  destruct (reconnect_loop_spec env (Z.to_nat (maxReconnectTries + 2)) 0 None (final d))
    as (n & Hatt & Hn & Hlast & Hout);
    [unfold maxReconnectTries; lia | unfold maxReconnectTries; lia |].
  set (l := reconnect_loop (Z.to_nat (maxReconnectTries + 2)) env 0 None (final d)) in *.
  cbn [effects final result fst snd].
  assert (Hnot : forall e, ~ quiet e -> e <> RestartSignal ->
                 In e (RestartSignal :: effects d ++ effects l) <-> In e (effects l)).
  { intros e He Hne. cbn [In]. rewrite in_app_iff. split; [|auto].
    intros [H|[H|H]]; [congruence| |exact H].
    exfalso. revert H. apply quiet_not_in; assumption. }
  assert (Hw : waits (RestartSignal :: effects d ++ effects l) = waits (effects l)).
  { cbn [waits]. rewrite waits_app, (quiet_waits _ Hq). reflexivity. }
  split; [left; reflexivity|].
  split; [rewrite Hlast, Hl; reflexivity|].
  exists n. cbn [attempts]. rewrite attempts_app, (quiet_attempts _ Hq).
  split; [exact Hatt|]. split; [lia|].
  unfold loop_outcome in *. cbn [effects final result fst snd] in *.
  rewrite Hw.
  assert (Hin : In log_reconnected (RestartSignal :: effects d ++ effects l)
                <-> In log_reconnected (effects l)).
  { apply Hnot; [cbn; tauto | discriminate]. }
  destruct Hout as [(Hr & Hi & Hrest)
                   |[(Hr & Hi & Hrest)|(e & Hr & Hi & Hrest)]].
  - left. rewrite Hin. auto.
  - right. left. rewrite Hin. auto.
  - right. right. exists e. rewrite Hin. auto.
Qed.

(** The whole of a [reconnect] that gets the restart lock.  It makes the
    attempts numbered 0, 1, ..., n with n <= maxReconnectTries, that is up
    to maxReconnectTries + 1 calls of [Connect].  After each failed attempt
    [try] below maxReconnectTries it waits [(try+3)*2] seconds, a wait the
    shutdown channel can cut short.  It ends in one of three ways: a
    [Connect] succeeds and it answers nil at once; the attempt numbered
    maxReconnectTries fails and it answers the too-many-attempts error; or
    the shutdown channel fires during a wait and it answers the error of
    the last [Connect]. *)
Lemma reconnect_attempts (env : reconnect_env) (m : Client) :
  result (lockRestart (now env) m) = true ->
  let r := reconnect env m in
  let t := effects r in
  exists n : nat,
    attempts t = upto 0 (S n)
    /\ Z.of_nat n <= maxReconnectTries
    /\ ((result r = None
         /\ In log_reconnected t
         /\ disconnected (final r) = false
         /\ waits t = map (wait_of env) (upto 0 n)
         /\ no_shutdown env (upto 0 n))
        \/ (result r = Some err_too_many
            /\ ~ In log_reconnected t
            /\ Z.of_nat n = maxReconnectTries
            /\ waits t = map (wait_of env) (upto 0 n)
            /\ no_shutdown env (upto 0 n))
        \/ (exists e,
              result r = Some e
              /\ ~ In log_reconnected t
              /\ Z.of_nat n < maxReconnectTries
              /\ waits t = map (wait_of env) (upto 0 (S n))
              /\ no_shutdown env (upto 0 n)
              /\ shutdown_during env (Z.of_nat n) = true)).
Proof.
  intros Hk r t. subst r t.
  destruct (reconnect_granted_spec env m Hk) as (_ & _ & n & Hatt & Hn & Hout).
  exists n. split; [exact Hatt|]. split; [exact Hn|].
  exact Hout.
Qed.

(** C6. [reconnect] goes ahead only if at least 500 ms (indeed more than
    500 ms) have passed since [lastRestart], and then sets [lastRestart] to
    the present; a call within 500 ms of the last one returns nil and does
    nothing, no [Disconnect] included.  Hence of two calls within 500 ms of
    each other at most one starts a series of reconnection attempts. *)
Theorem C6_reconnect_debounce (env1 env2 : reconnect_env) (m m' : Client) :
  unix_nano (lastRestart m) ->
  unix_nano (now env1) ->
  unix_nano (now env2) ->
  let r1 := reconnect env1 m in
  let r2 := reconnect env2 m' in
  (In RestartSignal (effects r1) <-> half_second < now env1 - lastRestart m)
  /\ (In RestartSignal (effects r1) ->
      half_second <= now env1 - lastRestart m /\ lastRestart (final r1) = now env1)
  /\ (now env1 - lastRestart m <= half_second -> r1 = (None, m, []))
  /\ (lastRestart m' = lastRestart (final r1) ->
      now env2 - now env1 <= half_second ->
      ~ (In RestartSignal (effects r1) /\ In RestartSignal (effects r2))
      /\ (attempts (effects r1) = [] \/ attempts (effects r2) = [])).
Proof.
  intros Hl Hn1 Hn2 r1 r2. subst r1 r2.
  pose proof (lockRestart_unfold (now env1) m Hn1 Hl) as Hk.
  destruct (Z.ltb_spec half_second (now env1 - lastRestart m)) as [Hgt|Hle].
  - (* the first call gets the lock *)
    assert (Hk1 : result (lockRestart (now env1) m) = true) by (rewrite Hk; reflexivity).
    destruct (reconnect_granted_spec env1 m Hk1) as (Hsig & Hlast & _).
    split; [tauto|]. split; [intros _; split; [lia|exact Hlast]|].
    split; [intros Hle; lia|].
    intros Hm' Hclose.
    assert (Hk2 : result (lockRestart (now env2) m') = false).
    { rewrite lockRestart_unfold; [|exact Hn2|rewrite Hm', Hlast; exact Hn1].
      rewrite Hm', Hlast.
      destruct (Z.ltb_spec half_second (now env2 - now env1)); [lia|reflexivity]. }
    rewrite (reconnect_refused env2 m' Hk2). cbn [effects snd In attempts].
    split; [tauto | right; reflexivity].
  - (* the first call is dropped *)
    assert (Hk1 : result (lockRestart (now env1) m) = false) by (rewrite Hk; reflexivity).
    rewrite (reconnect_refused env1 m Hk1). cbn [effects snd In attempts].
    split; [split; [tauto|lia]|]. split; [tauto|]. split; [reflexivity|].
    intros _ _. split; [tauto | left; reflexivity].
Qed.

(** ** The heartbeat watchdog *)

Lemma spawned_app t1 t2 : spawned (t1 ++ t2) = spawned t1 ++ spawned t2.
Proof.
  induction t1 as [|e t1 IH]; [reflexivity|].
  destruct e; cbn; rewrite ?IH; reflexivity.
Qed.

Lemma enqueue_spawned t : Forall is_enqueue t -> spawned t = [].
Proof.
  induction 1 as [|e t He _ IH]; [reflexivity|].
  destruct e; cbn in *; tauto.
Qed.

Lemma pulsate_beat_spawned (now : time.Time) (m : Client) :
  spawned (effects (pulsate_beat now m)) = [GWatchdog (lastHeartbeatAck m) now].
Proof.
  pose proof (Emit_effects (event_Heartbeat K) (DUint (sequenceNumber m)) m) as He.
  unfold pulsate_beat. run.
  destruct (Emit (event_Heartbeat K) (DUint (sequenceNumber m)) m) as [[e m1] t1].
  cbn [effects snd] in *. rewrite !spawned_app, (enqueue_spawned _ He). reflexivity.
Qed.

Lemma watchdog_unfold (last sent : time.Time) (env : reconnect_env) (m : Client) :
  watchdog last sent false env m =
    if time.After (lastHeartbeatAck m) last
    then (tt, set_heartbeatLatency (time.Sub (lastHeartbeatAck m) sent) m, [])
    else (tt, final (reconnect env m), log_forcing :: effects (reconnect env m)).
Proof.
  unfold watchdog. run.
  destruct (time.After (lastHeartbeatAck m) last); cbn [negb]; [reflexivity|].
  destruct (reconnect env m) as [[e m1] t1]. cbn. rewrite app_nil_r. reflexivity.
Qed.

Lemma time_Sub_exact (t u : time.Time) : is_int64 (t - u) -> time.Sub t u = t - u.
Proof.
  unfold is_int64, time.Sub. intros H.
  destruct (Z.ltb_spec (t - u) int64_min); [lia|].
  destruct (Z.ltb_spec int64_max (t - u)); [lia|reflexivity].
Qed.

(** C4. Every beat of the pulsator starts a watchdog with the
    acknowledgement time it has just snapshotted and the time of sending.
    When the watchdog's deadline elapses without cancellation, it forces a
    [reconnect] exactly when [lastHeartbeatAck] is not later than the
    snapshot; when an acknowledgement did arrive it does not reconnect
    and sets [heartbeatLatency] to [lastHeartbeatAck.Sub(sent)], which is
    [lastHeartbeatAck - sent] whenever that fits a [Duration]. *)
Theorem C4_watchdog_deadline (sent : time.Time) (env : reconnect_env) (m0 m : Client) :
  let last := lastHeartbeatAck m0 in
  let r := watchdog last sent false env m in
  spawned (effects (pulsate_beat sent m0)) = [GWatchdog last sent]
  /\ (In log_forcing (effects r) <-> lastHeartbeatAck m <= last)
  /\ (lastHeartbeatAck m <= last ->
      r = (tt, final (reconnect env m), log_forcing :: effects (reconnect env m)))
  /\ (last < lastHeartbeatAck m ->
      r = (tt, set_heartbeatLatency (time.Sub (lastHeartbeatAck m) sent) m, [])
      /\ (is_int64 (lastHeartbeatAck m - sent) ->
          heartbeatLatency (final r) = lastHeartbeatAck m - sent)).
Proof.
  intros last r. subst r.
  split; [apply pulsate_beat_spawned|].
  rewrite watchdog_unfold. unfold time.After.
  destruct (Z.ltb_spec last (lastHeartbeatAck m)) as [Hlt|Hle].
  - split; [cbn; split; [tauto|lia]|].
    split; [lia|]. intros _. split; [reflexivity|].
    intros Hfit. cbn. apply time_Sub_exact, Hfit.
  - split; [split; [intros _; exact Hle | intros _; left; reflexivity]|].
    split; [reflexivity | lia].
Qed.

(** ** The pulsator token *)

Lemma AllowedToStartPulsating_unfold (serviceID : Z) (m : Client) :
  AllowedToStartPulsating serviceID m =
    if pulsating m =? 0 then (true, set_pulsating serviceID m, [])
    else (pulsating m =? serviceID, m, []).
Proof.
  unfold AllowedToStartPulsating. run.
  destruct (pulsating m =? 0); cbn; [rewrite Z.eqb_refl|]; reflexivity.
Qed.

Lemma StopPulsating_unfold (serviceID : Z) (m : Client) :
  StopPulsating serviceID m =
    if pulsating m =? serviceID then (tt, set_pulsating 0 m, []) else (tt, m, []).
Proof.
  unfold StopPulsating. run.
  destruct (pulsating m =? serviceID); reflexivity.
Qed.

(** What the two methods do to the token: [AllowedToStartPulsating] sets
    it exactly when it is zero and answers whether the token then equals
    the caller's id; [StopPulsating] clears it exactly when it equals the
    caller's id. *)
Lemma pulsator_token_methods (serviceID : Z) (m : Client) :
  let a := AllowedToStartPulsating serviceID m in
  let s := StopPulsating serviceID m in
  pulsating (final a) = (if pulsating m =? 0 then serviceID else pulsating m)
  /\ (result a = true <-> pulsating (final a) = serviceID)
  /\ pulsating (final s) = (if pulsating m =? serviceID then 0 else pulsating m).
Proof.
  cbv zeta. rewrite AllowedToStartPulsating_unfold, StopPulsating_unfold.
  destruct (Z.eqb_spec (pulsating m) 0) as [E0|N0];
    destruct (Z.eqb_spec (pulsating m) serviceID) as [Es|Ns];
    cbn; repeat split; auto; try congruence.
Qed.

Lemma single_flight_step (st : Client * list Z) (a : pulse_action) :
  single_flight st -> admissible st a -> single_flight (pulse_step st a).
Proof.
  destruct st as [m running]. unfold single_flight, admissible, pulse_step.
  cbn [fst snd]. unfold pulsate_exit. run.
  intros [[-> Htok]|(sid & -> & Htok & Hsid)] Hadm; destruct a as [id|id].
  - rewrite AllowedToStartPulsating_unfold, Htok. cbn.
    right. exists id. tauto.
  - cbn. left. auto.
  - rewrite AllowedToStartPulsating_unfold.
    destruct (Z.eqb_spec (pulsating m) 0) as [E0|_]; [congruence|].
    destruct (Z.eqb_spec (pulsating m) id) as [Eid|_].
    + exfalso. destruct Hadm as [_ Hnot]. apply Hnot. left. congruence.
    + cbn. right. exists sid. auto.
  - cbn [existsb orb]. destruct (Z.eqb_spec id sid) as [->|Hne].
    + rewrite StopPulsating_unfold, Htok, Z.eqb_refl. cbn.
      rewrite Z.eqb_refl. left. auto.
    + cbn. right. exists sid. auto.
Qed.

(** With service ids that never collide the guard is a single-flight
    guard. *)
Lemma single_flight_run (l : list pulse_action) :
  forall st, single_flight st -> admissible_run st l -> single_flight (pulse_run st l).
Proof.
  induction l as [|a l IH]; intros st Hst Hadm; [exact Hst|].
  destruct Hadm as [Ha Hl]. cbn [pulse_run fold_left].
  apply IH; [apply single_flight_step; assumption | exact Hl].
Qed.

(* --------------------------------------------------------------------- *)
(** ** Tracked events *)

Lemma set_trackedEvents_same (m : Client) :
  set_trackedEvents (trackedEvents m) m = m.
Proof. destruct m; reflexivity. Qed.

Lemma index_of_None event l : index_of event l = None <-> ~ In event l.
Proof.
  induction l as [|x l IH]; cbn [index_of In]; [tauto|].
  destruct (String.eqb_spec event x) as [->|Hne].
  - split; [discriminate|]. intros H. exfalso. apply H. left. reflexivity.
  - destruct (index_of event l) as [i|].
    + split; [discriminate|]. intros H. exfalso.
      assert (Hn : ~ In event l) by tauto. apply IH in Hn. discriminate.
    + split; [|reflexivity]. intros _ [E|Hin]; [congruence|].
      revert Hin. apply IH. reflexivity.
Qed.

Lemma index_of_Some event l : forall i,
  index_of event l = Some i ->
  exists a b, l = a ++ event :: b /\ ~ In event a /\ i = List.length a.
Proof.
  induction l as [|x l IH]; cbn [index_of]; intros i H; [discriminate|].
  destruct (String.eqb_spec event x) as [->|Hne].
  - injection H as <-. exists [], l. cbn. tauto.
  - destruct (index_of event l) as [j|]; [|discriminate].
    injection H as <-.
    destruct (IH j eq_refl) as (a & b & -> & Hnot & ->).
    exists (x :: a), b. cbn. repeat split; try reflexivity.
    intros [E|Hin]; [congruence|tauto].
Qed.

Lemma set_nth_middle (a : list string) x v b :
  set_nth (List.length a) v (a ++ x :: b) = a ++ v :: b.
Proof. induction a as [|y a IH]; cbn; [|rewrite IH]; reflexivity. Qed.

(** What is left of [x :: b] when its first element is overwritten with
    its last one and the last element is cut off. *)
Lemma swap_remove_tail (x : string) b :
  Permutation (removelast (last (x :: b) ""%string :: b)) b.
Proof.
  destruct b as [|y b'] using rev_ind; [reflexivity|].
  clear IHb'.
  replace (last (x :: b' ++ [y]) ""%string) with y
    by (symmetry; apply (last_last (x :: b') y ""%string)).
  change (y :: b' ++ [y]) with ((y :: b') ++ [y]).
  rewrite removelast_last. apply Permutation_cons_append.
Qed.

Lemma RemoveEvent_tracked event (m : Client) a b :
  trackedEvents m = a ++ event :: b ->
  ~ In event a ->
  RemoveEvent event m =
    (tt, set_trackedEvents (a ++ removelast (last (event :: b) ""%string :: b)) m, []).
Proof.
  intros Hl Hnot. unfold RemoveEvent. run.
  destruct (index_of event (trackedEvents m)) as [i|] eqn:Hi.
  - destruct (index_of_Some _ _ _ Hi) as (a' & b' & Hl' & Hnot' & ->).
    assert (Ha : a' = a /\ b' = b).
    { rewrite Hl in Hl'. clear -Hl' Hnot Hnot'.
      revert a' Hl' Hnot'. induction a as [|x a IH]; intros [|y a'] H Ha'; cbn in *.
      - injection H as ->. auto.
      - injection H as <- _. exfalso. apply Ha'. left. reflexivity.
      - injection H as -> _. exfalso. apply Hnot. left. reflexivity.
      - injection H as -> H. destruct (IH ltac:(tauto) a' H ltac:(tauto)) as [-> ->].
        auto. }
    destruct Ha as [-> ->]. rewrite Hl, set_nth_middle.
    replace (last (a ++ event :: b) ""%string) with (last (event :: b) ""%string).
    + rewrite removelast_app by discriminate. reflexivity.
    + clear. induction a as [|x a IH]; [reflexivity|].
      cbn [app]. rewrite IH. destruct a; reflexivity.
  - exfalso. apply index_of_None in Hi. apply Hi. rewrite Hl.
    apply in_or_app. right. left. reflexivity.
Qed.

Lemma RemoveEvent_untracked event (m : Client) :
  ~ In event (trackedEvents m) -> RemoveEvent event m = (tt, m, []).
Proof.
  intros Hnot. apply index_of_None in Hnot. unfold RemoveEvent. run.
  rewrite Hnot. reflexivity.
Qed.

Lemma RegisterEvent_unfold event (m : Client) :
  RegisterEvent event m =
    if contains event (trackedEvents m) then (tt, m, [])
    else (tt, set_trackedEvents (trackedEvents m ++ [event]) m, []).
Proof.
  unfold RegisterEvent. run.
  destruct (contains event (trackedEvents m)); reflexivity.
Qed.

Lemma contains_app name l1 l2 :
  contains name (l1 ++ l2) = contains name l1 || contains name l2.
Proof.
  induction l1 as [|x l1 IH]; [reflexivity|]. cbn.
  destruct (name =? x)%string; [reflexivity|exact IH].
Qed.

Lemma contains_Permutation name l1 l2 :
  Permutation l1 l2 -> contains name l1 = contains name l2.
Proof.
  intros HP. apply eq_iff_eq_true. rewrite !contains_In.
  split; apply Permutation_in; [exact HP | symmetry; exact HP].
Qed.

(** One call of [RegisterEvent] or [RemoveEvent] on a slice without
    duplicates: the slice stays without duplicates and changes as a set. *)
Lemma track_step (c : track_call) (m : Client) :
  NoDup (trackedEvents m) ->
  NoDup (trackedEvents (final (track c m)))
  /\ forall name,
       eventOfInterest (final (track c m)) name = track_set (eventOfInterest m) c name.
Proof.
  intros Hnd. unfold eventOfInterest. destruct c as [event|event]; cbn [track track_set].
  - rewrite RegisterEvent_unfold.
    destruct (contains event (trackedEvents m)) eqn:Hc; cbn [final fst snd trackedEvents set_trackedEvents].
    + split; [exact Hnd|]. intros name.
      destruct (String.eqb_spec name event) as [->|_]; [rewrite Hc|]; reflexivity.
    + split.
      * apply (Permutation_NoDup (l := event :: trackedEvents m)).
        -- apply Permutation_cons_append.
        -- constructor; [|exact Hnd]. rewrite <- contains_In, Hc. discriminate.
      * intros name. rewrite contains_app. cbn [contains].
        destruct (name =? event)%string; cbn; rewrite ?orb_true_r, ?orb_false_r; reflexivity.
  - destruct (in_dec string_dec event (trackedEvents m)) as [Hin|Hnot].
    + apply in_split in Hin. destruct Hin as (a0 & b0 & Hl).
      assert (Hsplit : exists a b, trackedEvents m = a ++ event :: b /\ ~ In event a).
      { destruct (index_of event (trackedEvents m)) as [i|] eqn:Hi.
        - destruct (index_of_Some _ _ _ Hi) as (a & b & H1 & H2 & _). eauto.
        - apply index_of_None in Hi. exfalso. apply Hi. rewrite Hl.
          apply in_or_app. right. left. reflexivity. }
      destruct Hsplit as (a & b & Hab & Hnota).
      rewrite (RemoveEvent_tracked event m a b Hab Hnota).
      cbn [final fst snd trackedEvents set_trackedEvents].
      assert (HP : Permutation (a ++ removelast (last (event :: b) ""%string :: b)) (a ++ b)).
      { apply Permutation_app_head, swap_remove_tail. }
      rewrite Hab in Hnd. pose proof (NoDup_remove_1 _ _ _ Hnd) as Hnd1.
      pose proof (NoDup_remove_2 _ _ _ Hnd) as Hnotin.
      split.
      * apply (Permutation_NoDup (l := a ++ b)); [symmetry; exact HP | exact Hnd1].
      * intros name. rewrite (contains_Permutation name _ _ HP), Hab, !contains_app.
        cbn [contains].
        destruct (String.eqb_spec name event) as [->|_]; cbn [negb andb].
        -- apply not_true_is_false. rewrite <- contains_app, contains_In. exact Hnotin.
        -- reflexivity.
    + rewrite (RemoveEvent_untracked event m Hnot). cbn [final fst snd].
      split; [exact Hnd|]. intros name.
      destruct (String.eqb_spec name event) as [->|_]; cbn [negb andb]; [|reflexivity].
      apply not_true_is_false. rewrite contains_In. exact Hnot.
Qed.

Lemma track_all_step (cs : list track_call) :
  forall (m : Client),
    NoDup (trackedEvents m) ->
    NoDup (trackedEvents (final (track_all cs m)))
    /\ forall name,
         eventOfInterest (final (track_all cs m)) name
         = fold_left track_set cs (eventOfInterest m) name.
Proof.
  induction cs as [|c cs IH]; intros m Hnd; [split; [exact Hnd|reflexivity]|].
  cbn [track_all fold_left]. rewrite final_bind.
  destruct (track_step c m Hnd) as [Hnd1 Hset].
  destruct (IH _ Hnd1) as [Hnd2 Hall]. split; [exact Hnd2|].
  intros name. rewrite Hall. clear -Hset.
  generalize (eventOfInterest (final (track c m))) (track_set (eventOfInterest m) c) Hset.
  induction cs as [|c' cs IH]; intros f g Hfg; [apply Hfg|].
  cbn [fold_left]. apply IH. intros n.
  destruct c'; cbn [track_set]; rewrite Hfg; reflexivity.
Qed.

(** X1. From a new client, any sequence of [RegisterEvent] and
    [RemoveEvent] calls leaves [eventOfInterest] answering as a set of
    names would: a name is of interest exactly when it was registered and
    not removed since. *)
Theorem X1_tracked_events_behave_as_a_set
    (config : Config) (rl : ratelimiter) (cs : list track_call) (name : string) :
  eventOfInterest (final (track_all cs (NewClient config rl))) name
  = fold_left track_set cs (fun _ => false) name.
Proof.
  destruct (track_all_step cs (NewClient config rl)) as [_ H]; [constructor|].
  apply H.
Qed.

(** X2. [RegisterEvent] and [RemoveEvent] keep the slice of tracked events
    free of duplicates. *)
Theorem X2_tracked_events_stay_duplicate_free (cs : list track_call) (m : Client) :
  NoDup (trackedEvents m) ->
  NoDup (trackedEvents (final (track_all cs m))).
Proof. intros Hnd. apply (track_all_step cs m Hnd). Qed.

(** X3. [RemoveEvent] takes out the first occurrence of the event and
    keeps every other entry (the last entry moves into the gap); it changes
    nothing else in the client, and nothing at all when the event is not
    tracked. *)
Theorem X3_remove_event_removes_first_occurrence event (m : Client) a b :
  trackedEvents m = a ++ event :: b ->
  ~ In event a ->
  let r := RemoveEvent event m in
  Permutation (trackedEvents (final r)) (a ++ b)
  /\ List.length (trackedEvents (final r)) = (List.length (trackedEvents m) - 1)%nat
  /\ final r = set_trackedEvents (trackedEvents (final r)) m
  /\ effects r = []
  /\ (forall other, ~ In other (trackedEvents m) -> RemoveEvent other m = (tt, m, [])).
Proof.
  intros Hl Hnot r. subst r.
  rewrite (RemoveEvent_tracked event m a b Hl Hnot).
  cbn [final effects fst snd trackedEvents set_trackedEvents].
  assert (HP : Permutation (a ++ removelast (last (event :: b) ""%string :: b)) (a ++ b)).
  { apply Permutation_app_head, swap_remove_tail. }
  repeat split.
  - exact HP.
  - rewrite (Permutation_length HP), Hl, !length_app. cbn [List.length]. lia.
  - intros other. apply RemoveEvent_untracked.
Qed.

(** X4. Registering an event that was not tracked and removing it again
    gives back the client as it was. *)
Theorem X4_register_then_remove_round_trip event (m : Client) :
  ~ In event (trackedEvents m) ->
  final (RemoveEvent event (final (RegisterEvent event m))) = m.
Proof.
  intros Hnot. rewrite RegisterEvent_unfold.
  destruct (contains event (trackedEvents m)) eqn:Hc.
  - exfalso. apply Hnot, contains_In, Hc.
  - cbn [final fst snd].
    rewrite (RemoveEvent_tracked event _ (trackedEvents m) []); [| reflexivity | exact Hnot].
    cbn [final fst snd last removelast]. rewrite app_nil_r.
    destruct m; reflexivity.
Qed.

(** X5. Registration decides delivery.  Once [RegisterEvent(e)] has run, a
    DiscordEvent packet named [e] that is in sequence is put on the event
    channel.  Once [RemoveEvent(e)] has run on a duplicate-free slice, such
    a packet is dropped, unless [e] is [event.Ready] or [event.Resume];
    the sequence number advances all the same. *)
Theorem X5_registration_decides_delivery now (p : discordPacket) (m : Client) :
  p_Op p = opcode.DiscordEvent ->
  p_SequenceNumber p = uint_wrap (sequenceNumber m + 1) ->
  NoDup (trackedEvents m) ->
  let registered := final (RegisterEvent (p_EventName p) m) in
  let removed := final (RemoveEvent (p_EventName p) m) in
  forwarded (effects (operationHandlers_packet now p registered)) = [event_of p]
  /\ (p_EventName p <> event_Ready K ->
      p_EventName p <> event_Resume K ->
      forwarded (effects (operationHandlers_packet now p removed)) = [])
  /\ sequenceNumber (final (operationHandlers_packet now p removed))
     = uint_wrap (sequenceNumber m + 1).
Proof.
  intros Hop Hseq Hnd registered removed.
  pose proof (track_step (DoRegister (p_EventName p)) m Hnd) as [_ Hreg].
  pose proof (track_step (DoRemove (p_EventName p)) m Hnd) as [_ Hrem].
  cbn [track track_set] in Hreg, Hrem. fold registered in Hreg. fold removed in Hrem.
  assert (Hsr : sequenceNumber registered = sequenceNumber m).
  { subst registered. rewrite RegisterEvent_unfold.
    destruct (contains (p_EventName p) (trackedEvents m)); reflexivity. }
  assert (Hsm : sequenceNumber removed = sequenceNumber m).
  { subst removed. unfold RemoveEvent. run.
    destruct (index_of (p_EventName p) (trackedEvents m)); reflexivity. }
  rewrite !operationHandlers_packet_event by exact Hop.
  split; [|split].
  - destruct (eventHandler_match p registered) as [_ Hf]; [rewrite Hsr; exact Hseq|].
    rewrite Hf. unfold passes. fold (eventOfInterest registered (p_EventName p)).
    rewrite Hreg, String.eqb_refl, !orb_true_r. reflexivity.
  - intros Hready Hresume.
    destruct (eventHandler_match p removed) as [_ Hf]; [rewrite Hsm; exact Hseq|].
    rewrite Hf. unfold passes. fold (eventOfInterest removed (p_EventName p)).
    rewrite Hrem, String.eqb_refl, Hop, Z.eqb_refl.
    apply String.eqb_neq in Hready, Hresume. rewrite Hready, Hresume. reflexivity.
  - rewrite sequenceNumber_after_match; rewrite Hsm; [reflexivity|exact Hseq].
Qed.

(* --------------------------------------------------------------------- *)
(** ** The emitter *)

Lemma emitter_turn_unfold received write_err (m : Client) :
  emitter_turn received write_err m =
    match received with
    | Some c =>
        if closes_emitter c then (false, m, [ConnClose])
        else (true, m,
              ConnWriteJSON c :: match write_err with
                                 | Some _ => [Printf c]
                                 | None => []
                                 end)
    | None => (false, m, [ConnClose])
    end.
Proof.
  unfold emitter_turn, closes_emitter. run.
  destruct received as [c|]; [|reflexivity].
  destruct (c_Data c); cbn [andb];
    try destruct ((c_Op c =? opcode_Shutdown K) || (c_Op c =? opcode_Close K));
    destruct write_err; reflexivity.
Qed.

(** X6. The emitter writes the packets of the outbound channel on the
    transport one by one, in the order it receives them, up to the first
    packet that closes it (nil data with the internal Shutdown or Close
    opcode) or the shutdown signal; a write error does not stop it.  It
    closes the transport once, when it ends, and never touches the client
    record. *)
Theorem X6_emitter_writes_in_order
    (deliveries : list (option clientPacket * error)) (m : Client) :
  let r := emitter deliveries m in
  written (effects r) = before_close deliveries
  /\ closings (effects r) = (if ends_emitter deliveries then 1%nat else 0%nat)
  /\ final r = m.
Proof.
  cbv zeta. induction deliveries as [|[received write_err] rest IH].
  - repeat split.
  - cbn [emitter]. rewrite final_bind, effects_bind, emitter_turn_unfold.
    destruct received as [c|]; cbn [before_close ends_emitter].
    + destruct (closes_emitter c); cbn [result final effects fst snd orb].
      * repeat split.
      * destruct IH as (Hw & Hc & Hf).
        destruct write_err; cbn [app written closings]; rewrite Hw, Hc, Hf;
          repeat split.
    + repeat split.
Qed.

(* --------------------------------------------------------------------- *)
(** ** Connect and Disconnect *)

Lemma closes_emitter_Close :
  closes_emitter {| c_Op := opcode_Close K; c_Data := DNil |} = true.
Proof. unfold closes_emitter. cbn. rewrite Z.eqb_refl. apply orb_true_r. Qed.

(** X7. [Disconnect] on a live connection (the transport is up and a
    [Connect] has succeeded) sets the disconnected flag, waits one second
    times the timeout multiplier and then 10 ms, and answers nil.  What it
    puts on the outbound channel is the Close packet with nil data, the
    packet that makes the emitter close the transport and end without
    writing; when the rate limiter refuses the Close command nothing is
    sent, and the answer is nil all the same. *)
Theorem X7_disconnect_on_live_connection (m : Client) :
  haveConnectedOnce m = true ->
  let r := Disconnect false m in
  let close := {| c_Op := opcode_Close K; c_Data := DNil |} in
  let accepted := fst (Request (ratelimit m) (event_Close K)) in
  result r = None
  /\ disconnected (final r) = true
  /\ effects r =
       (if accepted then [Enqueue close] else [])
       ++ [Sleep (int64_wrap (time.Second * 1 * timeoutMultiplier m));
           Sleep (time.Millisecond * 10)]
  /\ (forall write_err m',
        emitter_turn (Some close) write_err m' = (false, m', [ConnClose])).
Proof.
  intros Hc r close accepted. subst r close accepted.
  rewrite Disconnect_unfold, Hc. cbn [negb orb]. cbv zeta.
  rewrite (Emit_supported _ _ DNil m Hc command_opcode_Close).
  split; [reflexivity|]. split; [reflexivity|]. split.
  - destruct (fst (Request (ratelimit m) (event_Close K))); reflexivity.
  - intros write_err m'. rewrite emitter_turn_unfold, closes_emitter_Close.
    reflexivity.
Qed.

Lemma Connect_error (env : connect_env) (m : Client) :
  result (Connect env m) <> None ->
  disconnected (final (Connect env m)) = disconnected m
  /\ haveConnectedOnce (final (Connect env m)) = haveConnectedOnce m
  /\ spawned (effects (Connect env m)) = [].
Proof.
  rewrite Connect_unfold.
  destruct (disconnected m) eqn:Hd; cbn [negb];
    [|intros _; cbn; rewrite Hd; auto].
  cbv zeta.
  destruct (Endpoint (conf m) =? "")%string;
    [destruct (snd (route_result env))|];
    try destruct (open_result env); cbn; intros H; try congruence;
    rewrite ?Hd; (split; [|split]); reflexivity.
Qed.

(** X8. [Connect] answers nil exactly when the client is disconnected,
    the endpoint is set or its discovery succeeds, and the transport
    opens.  Then it clears the disconnected flag, records that a connection
    was made, and starts the receiver and the emitter.  On every error it
    leaves both flags as they were and starts no goroutine; called on a
    client that is not disconnected it does nothing at all. *)
Theorem X8_connect_outcomes (env : connect_env) (m : Client) :
  let r := Connect env m in
  (result r = None <->
     disconnected m = true
     /\ (Endpoint (conf m) = ""%string -> snd (route_result env) = None)
     /\ open_result env = None)
  /\ (result r = None ->
      disconnected (final r) = false
      /\ haveConnectedOnce (final r) = true
      /\ spawned (effects r) = [GReceiver; GEmitter])
  /\ (result r <> None ->
      disconnected (final r) = disconnected m
      /\ haveConnectedOnce (final r) = haveConnectedOnce m
      /\ spawned (effects r) = [])
  /\ (disconnected m = false -> r = (Some err_already_connected, m, [])).
Proof.
  cbv zeta. split; [|split; [|split]].
  - rewrite Connect_unfold.
    destruct (disconnected m); cbn [negb]; [|split; [discriminate|intros [H _]; discriminate]].
    cbv zeta.
    destruct (String.eqb_spec (Endpoint (conf m)) "") as [E|N];
      [destruct (snd (route_result env)) eqn:Hr|];
      destruct (open_result env) eqn:Ho; cbn [result fst];
      (split;
       [ intros H; try discriminate;
         (split; [reflexivity|]); (split; [intros E'; congruence|reflexivity])
       | intros (_ & H1 & H2); try discriminate;
         try (specialize (H1 E); discriminate); reflexivity ]).
  - intros H. destruct (Connect_nil env m H) as [H1 H2].
    split; [exact H1|]. split; [exact H2|].
    revert H. rewrite Connect_unfold.
    destruct (disconnected m); cbn [negb]; [|discriminate].
    cbv zeta.
    destruct (Endpoint (conf m) =? "")%string;
      [destruct (snd (route_result env))|];
      try destruct (open_result env); cbn; intros H; try discriminate; reflexivity.
  - apply Connect_error.
  - intros H. rewrite Connect_unfold, H. reflexivity.
Qed.

(** X9. [Connect] asks for the gateway route only when the configured
    endpoint is empty, and then stores what the discovery answers, also
    when the discovery fails.  With an endpoint set it leaves the
    configuration alone.  The transport is only ever opened at the
    endpoint the client holds afterwards. *)
Theorem X9_connect_endpoint_discovery (env : connect_env) (m : Client) :
  let r := Connect env m in
  (Endpoint (conf m) <> ""%string ->
     conf (final r) = conf m
     /\ forall v, ~ In (GetGatewayRoute v) (effects r))
  /\ (Endpoint (conf m) = ""%string ->
      disconnected m = true ->
      conf (final r) = set_Endpoint (fst (route_result env)) (conf m)
      /\ In (GetGatewayRoute (Version (conf m))) (effects r))
  /\ (forall url, In (ConnOpen url) (effects r) -> url = Endpoint (conf (final r))).
Proof.
  cbv zeta. rewrite Connect_unfold.
  destruct (disconnected m); cbn [negb].
  - cbv zeta.
    destruct (String.eqb_spec (Endpoint (conf m)) "") as [E|N];
      [destruct (snd (route_result env))|];
      destruct (open_result env);
      cbn [final effects fst snd conf set_conf set_disconnected set_haveConnectedOnce
           app In];
      (split; [|split]);
      first [ intros H1 H2; split; [reflexivity|auto]
            | intros H;
              first [ contradiction
                    | split; [reflexivity|]; intros v Hin; intuition discriminate ]
            | intros url Hin; intuition congruence ].
  - cbn. split; [intros _; split; [reflexivity|tauto]|].
    split; [intros _ H; discriminate|tauto].
Qed.

(* --------------------------------------------------------------------- *)
(** ** What the methods keep and what they emit *)

Section Preservation.

Variable R : Client -> Client -> Prop.
Hypothesis R_refl : forall m, R m m.
Hypothesis R_trans : forall a b c, R a b -> R b c -> R a c.

Lemma preserves_ret {A} (a : A) : preserves R (ret a).
Proof. intros m. apply R_refl. Qed.

Lemma preserves_get : preserves R get.
Proof. intros m. apply R_refl. Qed.

Lemma preserves_tell e : preserves R (tell e).
Proof. intros m. apply R_refl. Qed.

Lemma preserves_modify f : (forall m, R m (f m)) -> preserves R (modify f).
Proof. intros H m. apply H. Qed.

Lemma preserves_bind {A B} (c : M A) (k : A -> M B) :
  preserves R c -> (forall a, preserves R (k a)) -> preserves R (bind c k).
Proof.
  intros Hc Hk m. rewrite final_bind.
  apply (R_trans _ (final (c m))); [apply Hc | apply Hk].
Qed.

End Preservation.

Section Emission.

Variable P : effect -> Prop.

Lemma emits_ret {A} (a : A) : emits P (ret a).
Proof. intros m. constructor. Qed.

Lemma emits_get : emits P get.
Proof. intros m. constructor. Qed.

Lemma emits_modify f : emits P (modify f).
Proof. intros m. constructor. Qed.

Lemma emits_tell e : P e -> emits P (tell e).
Proof. intros H m. repeat constructor. exact H. Qed.

Lemma emits_bind {A B} (c : M A) (k : A -> M B) :
  emits P c -> (forall a, emits P (k a)) -> emits P (bind c k).
Proof.
  intros Hc Hk m. rewrite effects_bind. apply Forall_app.
  split; [apply Hc | apply Hk].
Qed.

End Emission.

Ltac case_split :=
  match goal with
  | |- _ _ (if ?b then _ else _) => destruct b
  | |- _ _ (match ?x with _ => _ end) => destruct x
  end.

(** Goes through a method by its syntax; [setter] settles the goals left
    by [modify], [known] the calls of methods settled before. *)
Ltac preserve refl trans setter known :=
  repeat first
    [ apply (preserves_ret _ refl)
    | apply (preserves_get _ refl)
    | apply (preserves_tell _ refl)
    | apply preserves_modify; intros ?; solve [setter]
    | solve [known]
    | apply (preserves_bind _ trans); [|intros ?]
    | case_split ].

Ltac emit known :=
  repeat first
    [ apply emits_ret
    | apply emits_get
    | apply emits_modify
    | apply emits_tell; exact I
    | solve [known]
    | apply emits_bind; [|intros ?]
    | case_split ].

Lemma set_Endpoint_same (c : Config) : set_Endpoint (Endpoint c) c = c.
Proof. destruct c; reflexivity. Qed.

Lemma stable_refl (m : Client) : stable m m.
Proof. unfold stable. rewrite set_Endpoint_same. auto. Qed.

Lemma stable_trans (a b c : Client) : stable a b -> stable b c -> stable a c.
Proof.
  unfold stable. intros (Hc1 & He1 & Ht1 & Hh1) (Hc2 & He2 & Ht2 & Hh2).
  repeat split.
  - rewrite Hc2. rewrite Hc1 at 1. reflexivity.
  - intros Hne. rewrite He2; [apply He1; exact Hne|]. rewrite (He1 Hne). exact Hne.
  - congruence.
  - auto.
Qed.

(** A step that leaves the configuration and the multiplier alone and
    does not clear [haveConnectedOnce]. *)
Lemma stable_step (m m' : Client) :
  conf m' = conf m ->
  timeoutMultiplier m' = timeoutMultiplier m ->
  (haveConnectedOnce m = true -> haveConnectedOnce m' = true) ->
  stable m m'.
Proof.
  intros Hc Ht Hh. unfold stable. rewrite Hc, set_Endpoint_same. auto.
Qed.

Ltac stable_setter := apply stable_step; first [reflexivity | auto].

Ltac stably known := preserve stable_refl stable_trans stable_setter known.

Lemma Emit_stable command data : preserves stable (Emit command data).
Proof. unfold Emit. stably fail. Qed.

Lemma Connect_stable env : preserves stable (Connect env).
Proof.
  intros m. rewrite Connect_unfold.
  destruct (disconnected m); cbn [negb]; [|apply stable_refl].
  cbv zeta.
  destruct (String.eqb_spec (Endpoint (conf m)) "") as [E|N].
  - assert (Hs : stable m (set_conf (set_Endpoint (fst (route_result env)) (conf m)) m)).
    { unfold stable. cbn. repeat split; auto. intros H. contradiction. }
    destruct (snd (route_result env)); [exact Hs|].
    destruct (open_result env); [exact Hs|].
    cbn [final fst snd]. eapply stable_trans; [exact Hs|]. stable_setter.
  - destruct (open_result env); [apply stable_refl|].
    cbn [final fst snd]. stable_setter.
Qed.

Lemma Disconnect_stable cd : preserves stable (Disconnect cd).
Proof. unfold Disconnect. stably ltac:(apply Emit_stable). Qed.

Lemma Shutdown_stable cd : preserves stable (Shutdown cd).
Proof. unfold Shutdown. stably ltac:(apply Disconnect_stable). Qed.

Lemma lockRestart_stable now : preserves stable (lockRestart now).
Proof. unfold lockRestart. stably fail. Qed.

Lemma reconnect_loop_stable fuel env : forall try err,
  preserves stable (reconnect_loop fuel env try err).
Proof.
  induction fuel as [|fuel IH]; intros try err; cbn [reconnect_loop].
  - stably fail.
  - stably ltac:(first [apply Connect_stable | apply IH]).
Qed.

Lemma reconnect_stable env : preserves stable (reconnect env).
Proof.
  unfold reconnect.
  stably ltac:(first [apply lockRestart_stable | apply Disconnect_stable
                     | apply reconnect_loop_stable]).
Qed.

Lemma sendIdentityPacket_stable : preserves stable sendIdentityPacket.
Proof. unfold sendIdentityPacket. stably ltac:(apply Emit_stable). Qed.

Lemma eventHandler_stable p : preserves stable (eventHandler p).
Proof. unfold eventHandler, log_if_err. stably fail. Qed.

Lemma sendHelloPacket_stable : preserves stable sendHelloPacket.
Proof.
  unfold sendHelloPacket, log_if_err.
  stably ltac:(first [apply sendIdentityPacket_stable | apply Emit_stable]).
Qed.

Lemma operationHandlers_packet_stable now p :
  preserves stable (operationHandlers_packet now p).
Proof.
  unfold operationHandlers_packet, log_if_err.
  stably ltac:(first [apply eventHandler_stable | apply sendHelloPacket_stable
                     | apply Emit_stable]).
Qed.

Lemma watchdog_stable last sent cancelled env :
  preserves stable (watchdog last sent cancelled env).
Proof. unfold watchdog. stably ltac:(apply reconnect_stable). Qed.

Lemma perform_stable a : preserves stable (perform a).
Proof.
  destruct a; cbn [perform];
    try destruct c;
    unfold track, invalidSession, AllowedToStartPulsating, StopPulsating,
      pulsate_beat, pulsate_exit, StopPulsating, HeartbeatLatency, RegisterEvent,
      RemoveEvent, emitter_turn, log_if_err;
    stably ltac:(first [ apply Connect_stable | apply Disconnect_stable
                       | apply Shutdown_stable | apply Emit_stable
                       | apply operationHandlers_packet_stable
                       | apply reconnect_stable | apply sendIdentityPacket_stable
                       | apply watchdog_stable ]).
Qed.

Lemma perform_all_stable l : preserves stable (perform_all l).
Proof.
  induction l as [|a l IH]; cbn [perform_all].
  - apply (preserves_ret _ stable_refl).
  - apply (preserves_bind _ stable_trans); [apply perform_stable | intros _; exact IH].
Qed.

(** X10. Whatever is done to a client, in any order (method calls,
    packets, goroutine steps), the configuration keeps its token and every
    other field except the endpoint, an endpoint that is set stays as it
    is, the timeout multiplier does not change, and [haveConnectedOnce],
    once true, stays true. *)
Theorem X10_what_no_action_takes_back (l : list action) (m : Client) :
  let m' := final (perform_all l m) in
  conf m' = set_Endpoint (Endpoint (conf m')) (conf m)
  /\ (Endpoint (conf m) <> ""%string -> Endpoint (conf m') = Endpoint (conf m))
  /\ timeoutMultiplier m' = timeoutMultiplier m
  /\ (haveConnectedOnce m = true -> haveConnectedOnce m' = true).
Proof. exact (perform_all_stable l m). Qed.

Lemma Emit_off_transport command data : emits off_transport (Emit command data).
Proof. unfold Emit. emit fail. Qed.

Lemma Connect_off_transport env : emits off_transport (Connect env).
Proof. unfold Connect. emit fail. Qed.

Lemma Disconnect_off_transport cd : emits off_transport (Disconnect cd).
Proof. unfold Disconnect. emit ltac:(apply Emit_off_transport). Qed.

Lemma reconnect_loop_off_transport fuel env : forall try err,
  emits off_transport (reconnect_loop fuel env try err).
Proof.
  induction fuel as [|fuel IH]; intros try err; cbn [reconnect_loop].
  - emit fail.
  - emit ltac:(first [apply Connect_off_transport | apply IH]).
Qed.

Lemma reconnect_off_transport env : emits off_transport (reconnect env).
Proof.
  unfold reconnect, lockRestart.
  emit ltac:(first [apply Disconnect_off_transport | apply reconnect_loop_off_transport]).
Qed.

Lemma sendIdentityPacket_off_transport : emits off_transport sendIdentityPacket.
Proof. unfold sendIdentityPacket. emit ltac:(apply Emit_off_transport). Qed.

Lemma operationHandlers_packet_off_transport now p :
  emits off_transport (operationHandlers_packet now p).
Proof.
  unfold operationHandlers_packet, eventHandler, sendHelloPacket, log_if_err.
  emit ltac:(first [apply sendIdentityPacket_off_transport | apply Emit_off_transport]).
Qed.

Lemma perform_off_transport a :
  is_emitter_turn a = false -> emits off_transport (perform a).
Proof.
  destruct a; cbn [perform is_emitter_turn]; try discriminate; intros _;
    try destruct c;
    unfold track, Shutdown, invalidSession, AllowedToStartPulsating, StopPulsating,
      pulsate_beat, pulsate_exit, StopPulsating, HeartbeatLatency, RegisterEvent,
      RemoveEvent, watchdog, log_if_err;
    emit ltac:(first [ apply Connect_off_transport | apply Disconnect_off_transport
                     | apply Emit_off_transport
                     | apply operationHandlers_packet_off_transport
                     | apply reconnect_off_transport
                     | apply sendIdentityPacket_off_transport ]).
Qed.

Lemma off_transport_written t :
  Forall off_transport t -> written t = [] /\ closings t = 0%nat.
Proof.
  induction 1 as [|e t He _ [IH1 IH2]]; [split; reflexivity|].
  destruct e; cbn in *; tauto.
Qed.

(** X11. Only the emitter writes on the transport or closes it: whatever
    else is done to a client (method calls, packets, the other goroutines'
    steps), the trace holds no write on the transport and no closing of
    it. *)
Theorem X11_only_the_emitter_uses_the_transport (l : list action) (m : Client) :
  Forall (fun a => is_emitter_turn a = false) l ->
  written (effects (perform_all l m)) = []
  /\ closings (effects (perform_all l m)) = 0%nat.
Proof.
  intros Hl. apply off_transport_written. revert m.
  induction Hl as [|a l Ha _ IH]; cbn [perform_all]; intros m.
  - constructor.
  - apply (emits_bind off_transport); [apply perform_off_transport, Ha | intros _; exact IH].
Qed.

(* --------------------------------------------------------------------- *)
(** ** The demultiplexer, packet by packet *)

Lemma same_session_refl (m : Client) : same_session m m.
Proof. unfold same_session. auto. Qed.

Lemma same_session_trans (a b c : Client) :
  same_session a b -> same_session b c -> same_session a c.
Proof. unfold same_session. intuition congruence. Qed.

Ltac session_setter := unfold same_session; cbn; auto.

Ltac in_session known :=
  preserve same_session_refl same_session_trans session_setter known.

Lemma Emit_same_session command data : preserves same_session (Emit command data).
Proof. unfold Emit. in_session fail. Qed.

Lemma operationHandlers_packet_same_session now p :
  p_Op p <> opcode.DiscordEvent ->
  preserves same_session (operationHandlers_packet now p).
Proof.
  intros Hne. unfold operationHandlers_packet.
  destruct (Z.eqb_spec (p_Op p) opcode.DiscordEvent); [contradiction|].
  unfold sendHelloPacket, sendIdentityPacket, log_if_err.
  in_session ltac:(apply Emit_same_session).
Qed.

Lemma eventHandler_forwarded (p : discordPacket) (m : Client) :
  forwarded (effects (eventHandler p m)) =
    if (p_SequenceNumber p =? uint_wrap (sequenceNumber m + 1)) && passes m p
    then [event_of p] else [].
Proof.
  destruct (Z.eqb_spec (p_SequenceNumber p) (uint_wrap (sequenceNumber m + 1))) as [E|N].
  - destruct (eventHandler_match p m E) as [_ ->]. reflexivity.
  - unfold eventHandler. run. rewrite sequenceNumber_set.
    apply Z.eqb_neq in N. rewrite N. reflexivity.
Qed.

(** X12. One packet moves the sequence number by at most one, and only a
    DiscordEvent packet that carries the next number moves it; session id
    and trace change only on such a packet named [event.Ready].  Every
    other packet leaves sequence number, session id and trace alone. *)
Theorem X12_what_a_packet_changes_in_the_session now (p : discordPacket) (m : Client) :
  is_uint (sequenceNumber m) ->
  let m' := final (operationHandlers_packet now p m) in
  let in_sequence :=
    p_Op p = opcode.DiscordEvent
    /\ p_SequenceNumber p = uint_wrap (sequenceNumber m + 1) in
  (in_sequence -> sequenceNumber m' = uint_wrap (sequenceNumber m + 1))
  /\ (~ in_sequence -> sequenceNumber m' = sequenceNumber m)
  /\ (~ (in_sequence /\ p_EventName p = event_Ready K) ->
      sessionID m' = sessionID m /\ trace m' = trace m).
Proof.
  intros Hu m' in_sequence. subst m' in_sequence.
  destruct (Z.eq_dec (p_Op p) opcode.DiscordEvent) as [Hop|Hop].
  - rewrite operationHandlers_packet_event by exact Hop.
    destruct (Z.eq_dec (p_SequenceNumber p) (uint_wrap (sequenceNumber m + 1))) as [E|N].
    + destruct (eventHandler_match p m E) as [-> _].
      split; [|split].
      * intros _. destruct (p_EventName p =? event_Ready K)%string; reflexivity.
      * intros H. exfalso. apply H. auto.
      * intros H. destruct (String.eqb_spec (p_EventName p) (event_Ready K)) as [Er|_].
        -- exfalso. apply H. auto.
        -- split; reflexivity.
    + rewrite (eventHandler_mismatch p m Hu N). cbn [final fst snd].
      split; [|split]; [intros [_ E]; contradiction | reflexivity | split; reflexivity].
  - destruct (operationHandlers_packet_same_session now p Hop m) as (Hs & Hi & Ht).
    split; [|split]; [intros [E _]; contradiction | intros _; exact Hs | auto].
Qed.

Lemma not_forward_forwarded t : Forall not_forward t -> forwarded t = [].
Proof.
  induction 1 as [|e t He _ IH]; [reflexivity|].
  destruct e; cbn in *; tauto.
Qed.

Lemma not_enqueue_enqueued t : Forall not_enqueue t -> enqueued t = [].
Proof.
  induction 1 as [|e t He _ IH]; [reflexivity|].
  destruct e; cbn in *; tauto.
Qed.

Lemma enqueue_forwarded t : Forall is_enqueue t -> forwarded t = [].
Proof.
  induction 1 as [|e t He _ IH]; [reflexivity|].
  destruct e; cbn in *; tauto.
Qed.

Lemma Emit_not_forward command data : emits not_forward (Emit command data).
Proof. unfold Emit. emit fail. Qed.

Lemma operationHandlers_packet_not_forward now p :
  p_Op p <> opcode.DiscordEvent ->
  emits not_forward (operationHandlers_packet now p).
Proof.
  intros Hne. unfold operationHandlers_packet.
  destruct (Z.eqb_spec (p_Op p) opcode.DiscordEvent); [contradiction|].
  unfold sendHelloPacket, sendIdentityPacket, log_if_err.
  emit ltac:(apply Emit_not_forward).
Qed.

Lemma operationHandlers_packet_not_enqueue now p :
  p_Op p <> opcode.Heartbeat ->
  p_Op p <> opcode.Hello ->
  emits not_enqueue (operationHandlers_packet now p).
Proof.
  intros Hb Hh. unfold operationHandlers_packet.
  destruct (Z.eqb_spec (p_Op p) opcode.Heartbeat); [contradiction|].
  destruct (Z.eqb_spec (p_Op p) opcode.Hello); [contradiction|].
  unfold eventHandler, log_if_err.
  emit fail.
Qed.

Lemma enqueued_app t1 t2 : enqueued (t1 ++ t2) = enqueued t1 ++ enqueued t2.
Proof.
  induction t1 as [|e t1 IH]; [reflexivity|].
  destruct e; cbn; rewrite ?IH; reflexivity.
Qed.

Lemma forwarded_app t1 t2 : forwarded (t1 ++ t2) = forwarded t1 ++ forwarded t2.
Proof.
  induction t1 as [|e t1 IH]; [reflexivity|].
  destruct e; cbn; rewrite ?IH; reflexivity.
Qed.

(** The frame of the handshake, as [sendHelloPacket] sends it. *)
Lemma sendHelloPacket_enqueued (m : Client) :
  enqueued (effects (sendHelloPacket m)) =
    if hello_fresh m
    then (if haveConnectedOnce m && fst (Request (ratelimit m) (event_Identify K))
          then [identify_frame m] else [])
    else (if haveConnectedOnce m && fst (Request (ratelimit m) (event_Resume K))
          then [resume_frame m] else []).
Proof.
  unfold sendHelloPacket, sendIdentityPacket, hello_fresh.
  rewrite effects_bind. cbn [tell effects result final fst snd app enqueued].
  rewrite effects_bind. cbn [get effects result final fst snd app enqueued].
  destruct ((sessionID m =? "")%string && (sequenceNumber m =? 0)).
  - rewrite effects_bind, result_bind, final_bind, effects_bind.
    cbn [get effects result final fst snd app].
    rewrite enqueued_app, Emit_enqueued, command_opcode_Identify.
    destruct (result (Emit _ _ m)); cbn; rewrite app_nil_r; reflexivity.
  - rewrite effects_bind. cbn [ret effects snd].
    rewrite app_nil_r, Emit_enqueued, command_opcode_Resume. reflexivity.
Qed.

Lemma operationHandlers_packet_hello_enqueued now (p : discordPacket) (m : Client) :
  p_Op p = opcode.Hello ->
  enqueued (effects (operationHandlers_packet now p m)) =
    enqueued (effects (sendHelloPacket
      (set_heartbeatInterval (HeartbeatInterval (fst (unmarshal_hello (p_Data p)))) m))).
Proof.
  intros Hop. rewrite operationHandlers_packet_hello by exact Hop.
  destruct (unmarshal_hello (p_Data p)) as [helloPk err]. cbn [fst].
  rewrite !effects_bind.
  destruct err; cbn [log_if_err tell ret modify effects result final fst snd app enqueued];
    reflexivity.
Qed.

(** X13. A packet puts at most one event on the event channel and at most
    one frame on the outbound channel.  Only a DiscordEvent packet can
    forward an event, and then the event is the packet's own name and
    data; only a Heartbeat or a Hello packet can send a frame. *)
Theorem X13_what_a_packet_can_cause now (p : discordPacket) (m : Client) :
  let t := effects (operationHandlers_packet now p m) in
  (forwarded t = [] \/ (forwarded t = [event_of p] /\ p_Op p = opcode.DiscordEvent))
  /\ (enqueued t = []
      \/ (exists frame, enqueued t = [frame]
                       /\ (p_Op p = opcode.Heartbeat \/ p_Op p = opcode.Hello))).
Proof.
  cbv zeta. split.
  - destruct (Z.eq_dec (p_Op p) opcode.DiscordEvent) as [Hop|Hop].
    + rewrite operationHandlers_packet_event, eventHandler_forwarded by exact Hop.
      destruct (_ && _); auto.
    + left. apply not_forward_forwarded, operationHandlers_packet_not_forward, Hop.
  - destruct (Z.eq_dec (p_Op p) opcode.Heartbeat) as [Hb|Hb].
    + unfold operationHandlers_packet. rewrite Hb. cbn [Z.eqb opcode.Heartbeat
        opcode.DiscordEvent opcode.Reconnect opcode.InvalidSession Pos.eqb].
      rewrite effects_bind. cbn [get effects result final fst snd app].
      rewrite effects_bind. cbn [ret effects snd]. rewrite app_nil_r, Emit_enqueued.
      destruct (command_opcode (event_Heartbeat K)); [|auto].
      destruct (_ && _); eauto.
    + destruct (Z.eq_dec (p_Op p) opcode.Hello) as [Hh|Hh].
      * rewrite operationHandlers_packet_hello_enqueued, sendHelloPacket_enqueued
          by exact Hh.
        destruct (hello_fresh _); destruct (_ && _); eauto.
      * left. apply not_enqueue_enqueued, operationHandlers_packet_not_enqueue; assumption.
Qed.

Lemma operationHandlers_packet_forwarded now (p : discordPacket) (m : Client) :
  forwarded (effects (operationHandlers_packet now p m)) =
    if (p_Op p =? opcode.DiscordEvent)
       && (p_SequenceNumber p =? uint_wrap (sequenceNumber m + 1))
       && passes m p
    then [event_of p] else [].
Proof.
  destruct (Z.eqb_spec (p_Op p) opcode.DiscordEvent) as [Hop|Hop]; cbn [andb].
  - rewrite operationHandlers_packet_event by exact Hop. apply eventHandler_forwarded.
  - apply not_forward_forwarded, operationHandlers_packet_not_forward, Hop.
Qed.

(** X14. Over any run of packets the events on the event channel are
    events of the DiscordEvent packets received, each at most once and in
    the order of arrival: nothing is invented, repeated or reordered. *)
Theorem X14_forwarded_events_follow_the_packets now (ps : list discordPacket) (m : Client) :
  subseq (forwarded (effects (operationHandlers_run now ps m)))
         (map event_of (filter (fun p => p_Op p =? opcode.DiscordEvent) ps)).
Proof.
  revert m. induction ps as [|p ps IH]; intros m; [constructor|].
  cbn [operationHandlers_run filter]. rewrite effects_bind, forwarded_app.
  rewrite operationHandlers_packet_forwarded.
  specialize (IH (final (operationHandlers_packet now p m))).
  destruct (p_Op p =? opcode.DiscordEvent); cbn [andb map].
  - destruct (_ && _); cbn [app]; constructor; exact IH.
  - exact IH.
Qed.

(** X24. The first handshake.  On a new client, once [Connect] has
    succeeded, a Hello packet makes the client identify: the one frame it
    sends is the Identify frame with the token, the properties, the
    large-guild threshold and the shard of the configuration ([shard] only
    when the shard count is above 1), provided the rate limiter admits
    it. *)
Theorem X24_first_hello_identifies
    (config : Config) (rl : ratelimiter) (env : connect_env) now (p : discordPacket) :
  result (Connect env (NewClient config rl)) = None ->
  p_Op p = opcode.Hello ->
  let m := final (Connect env (NewClient config rl)) in
  enqueued (effects (operationHandlers_packet now p m)) =
    if fst (Request rl (event_Identify K))
    then [identify_frame (NewClient config rl)] else [].
Proof.
  intros Hc Hop m.
  rewrite operationHandlers_packet_hello_enqueued, sendHelloPacket_enqueued by exact Hop.
  subst m. revert Hc. rewrite Connect_unfold.
  change (disconnected (NewClient config rl)) with true.
  change (conf (NewClient config rl)) with config.
  cbn [negb]. cbv zeta.
  destruct (Endpoint config =? "")%string;
    [destruct (snd (route_result env))|];
    destruct (open_result env); cbn [result fst]; intros H; try discriminate;
    reflexivity.
Qed.

(** X25. After an event has been accepted the next handshake resumes.
    When a DiscordEvent packet in sequence has been handled (and the counter
    has not wrapped to 0), a Hello packet never makes the client identify:
    the one frame it can send is the Resume frame with the configured
    token, the session id the client holds and the sequence number just
    reached. *)
Theorem X25_hello_after_an_event_resumes now now' (p h : discordPacket) (m : Client) :
  0 <= sequenceNumber m ->
  sequenceNumber m + 1 < uint_modulus ->
  p_Op p = opcode.DiscordEvent ->
  p_SequenceNumber p = sequenceNumber m + 1 ->
  p_Op h = opcode.Hello ->
  let m1 := final (operationHandlers_packet now p m) in
  sequenceNumber m1 = sequenceNumber m + 1
  /\ enqueued (effects (operationHandlers_packet now' h m1)) =
       (if haveConnectedOnce m1 && fst (Request (ratelimit m1) (event_Resume K))
        then [resume_frame m1] else []).
Proof.
  intros H0 Hlt Hop Hseq Hh m1.
  assert (Hw : uint_wrap (sequenceNumber m + 1) = sequenceNumber m + 1).
  { apply uint_wrap_small. unfold is_uint. lia. }
  assert (Hs : sequenceNumber m1 = sequenceNumber m + 1).
  { subst m1. rewrite operationHandlers_packet_event by exact Hop.
    rewrite sequenceNumber_after_match; [exact Hw | rewrite Hw; exact Hseq]. }
  split; [exact Hs|].
  rewrite operationHandlers_packet_hello_enqueued, sendHelloPacket_enqueued by exact Hh.
  unfold hello_fresh.
  cbn [sessionID sequenceNumber haveConnectedOnce ratelimit set_heartbeatInterval].
  rewrite Hs.
  destruct (Z.eqb_spec (sequenceNumber m + 1) 0) as [E|_]; [lia|].
  rewrite andb_false_r. unfold resume_frame. cbn. rewrite Hs. reflexivity.
Qed.

(* --------------------------------------------------------------------- *)
(** ** Reconnecting, as a whole *)

Lemma backoff_bound (env : reconnect_env) t k :
  waits t = map (wait_of env) (upto 0 k) ->
  Z.of_nat k <= maxReconnectTries ->
  0 <= backoff t <= 50 * time.Second.
Proof.
  intros Hw Hk. unfold backoff. rewrite Hw. unfold maxReconnectTries in Hk.
  destruct k as [|[|[|[|[|[|k]]]]]]; try lia;
    cbn; unfold time.Second; lia.
Qed.

(** X15. One call of [reconnect] makes at most maxReconnectTries + 1 = 6
    calls of [Connect] and spends at most 6 + 8 + 10 + 12 + 14 = 50 seconds
    in the waits between them. *)
Theorem X15_reconnect_is_bounded (env : reconnect_env) (m : Client) :
  let t := effects (reconnect env m) in
  (List.length (attempts t) <= Z.to_nat (maxReconnectTries + 1))%nat
  /\ 0 <= backoff t <= 50 * time.Second.
Proof.
  cbv zeta. destruct (result (lockRestart (now env) m)) eqn:Hk.
  - destruct (reconnect_granted_spec env m Hk) as (_ & _ & n & Hatt & Hn & Hout).
    split.
    + rewrite Hatt. unfold upto. rewrite length_map, length_seq.
      unfold maxReconnectTries in *. lia.
    + unfold loop_outcome in Hout.
      destruct Hout as [(_ & _ & _ & Hw & _)
                       |[(_ & _ & _ & Hw & _)|(e & _ & _ & Hlt & Hw & _)]].
      * apply (backoff_bound env _ n Hw). lia.
      * apply (backoff_bound env _ n Hw). lia.
      * apply (backoff_bound env _ (S n) Hw). lia.
  - rewrite (reconnect_refused env m Hk). cbn. unfold time.Second. lia.
Qed.

Lemma reconnect_loop_flags (env : reconnect_env) fuel :
  forall try err (m : Client),
    0 <= try <= maxReconnectTries ->
    (Z.to_nat (maxReconnectTries + 1 - try) <= fuel)%nat ->
    disconnected m = true ->
    let r := reconnect_loop fuel env try err m in
    (result r = None ->
       disconnected (final r) = false /\ haveConnectedOnce (final r) = true)
    /\ (result r <> None -> disconnected (final r) = true).
Proof.
  induction fuel as [|fuel IH]; intros try err m Htry Hfuel Hd.
  - exfalso. unfold maxReconnectTries in *. lia.
  - cbv zeta. rewrite reconnect_loop_S by apply Htry. cbv zeta.
    pose proof (Connect_nil (attempt env try) m) as Hnil.
    pose proof (Connect_error (attempt env try) m) as Herr.
    destruct (result (Connect (attempt env try) m)) as [e|].
    + destruct Herr as (Hd' & _ & _); [discriminate|]. rewrite Hd in Hd'.
      destruct (Z.eqb_spec try maxReconnectTries) as [Emax|Hlt].
      * cbn [result final fst snd]. split; [discriminate|intros _; exact Hd'].
      * destruct (shutdown_during env try).
        -- cbn [result final fst snd]. split; [discriminate|intros _; exact Hd'].
        -- cbn [result final fst snd]. apply IH; [lia | lia | exact Hd'].
    + cbn [result final fst snd]. split; [intros _; apply Hnil; reflexivity|].
      intros H. contradiction.
Qed.

(** X16. What the answer of [reconnect] tells.  A call that gets the
    restart lock answers nil only with the client connected again
    (disconnected flag cleared), and answers an error only with the client
    left disconnected.  A call that is debounced answers nil too, and
    leaves the client exactly as it was. *)
Theorem X16_reconnect_answer_and_flags (env : reconnect_env) (m : Client) :
  let r := reconnect env m in
  let granted := result (lockRestart (now env) m) in
  (granted = true -> result r = None ->
     disconnected (final r) = false /\ haveConnectedOnce (final r) = true)
  /\ (granted = true -> result r <> None -> disconnected (final r) = true)
  /\ (granted = false -> r = (None, m, [])).
Proof.
  cbv zeta.
  assert (Hg : result (lockRestart (now env) m) = true ->
          (result (reconnect env m) = None ->
             disconnected (final (reconnect env m)) = false
             /\ haveConnectedOnce (final (reconnect env m)) = true)
          /\ (result (reconnect env m) <> None ->
              disconnected (final (reconnect env m)) = true)).
  { intros Hk. rewrite (reconnect_granted env m Hk). cbv zeta.
    cbn [result final fst snd].
    apply reconnect_loop_flags;
      [unfold maxReconnectTries; lia | unfold maxReconnectTries; lia |].
    rewrite Disconnect_unfold.
    destruct (_ || _); reflexivity. }
  split; [intros Hk; apply (Hg Hk)|].
  split; [intros Hk; apply (Hg Hk)|].
  apply reconnect_refused.
Qed.

Lemma last_cons_default (x d : Z) l : last (x :: l) d = last l x.
Proof.
  revert x d. induction l as [|y l IH]; intros x d; [reflexivity|].
  change (last (x :: y :: l) d) with (last (y :: l) d).
  rewrite (IH y d), (IH y x). reflexivity.
Qed.

(** X17. The restart lock over any series of calls: the calls that get
    the lock are each more than 500 ms after the one before (the first one
    after the [lastRestart] the series starts with), and [lastRestart] ends
    as the time of the last of them. *)
Theorem X17_granted_restarts_are_spaced (nows : list Z) (m : Client) :
  unix_nano (lastRestart m) ->
  Forall unix_nano nows ->
  let r := lockRestart_calls nows m in
  spaced (lastRestart m) (result r)
  /\ lastRestart (final r) = last (result r) (lastRestart m)
  /\ incl (result r) nows.
Proof.
  intros Hl Hn. cbv zeta. revert m Hl.
  induction Hn as [|now nows Hnow _ IH]; intros m Hl.
  - cbn. repeat split. apply incl_nil_l.
  - cbn [lockRestart_calls].
    rewrite !result_bind, !final_bind.
    rewrite (lockRestart_unfold now m Hnow Hl).
    destruct (Z.ltb_spec half_second (now - lastRestart m)) as [Hgt|Hle];
      cbn [result final fst snd ret].
    + destruct (IH (set_lastRestart now m) Hnow) as (Hs & Hlast & Hincl).
      cbn [lastRestart set_lastRestart] in Hs, Hlast.
      split; [cbn [spaced]; split; assumption|].
      split; [rewrite Hlast, last_cons_default; reflexivity|].
      apply incl_cons; [left; reflexivity | apply incl_tl; exact Hincl].
    + destruct (IH m Hl) as (Hs & Hlast & Hincl).
      split; [exact Hs|]. split; [exact Hlast|]. apply incl_tl. exact Hincl.
Qed.

(* --------------------------------------------------------------------- *)
(** ** The pulsator, the latency and the invalid-session delay *)

(** X18. With service ids that are non-zero and never collide with a
    running pulsator's, the guard is a single-flight guard on a new client:
    after any series of pulsator starts and exits at most one pulsator
    runs, and the token is zero exactly when none does. *)
Theorem X18_single_flight_without_collisions
    (config : Config) (rl : ratelimiter) (l : list pulse_action) :
  admissible_run (NewClient config rl, []) l ->
  let st := pulse_run (NewClient config rl, []) l in
  (List.length (snd st) <= 1)%nat
  /\ (pulsating (fst st) = 0 <-> snd st = []).
Proof.
  intros Hadm. cbv zeta.
  assert (H0 : single_flight (NewClient config rl, [])) by (left; split; reflexivity).
  destruct (single_flight_run l _ H0 Hadm) as [[Hr Ht]|(sid & Hr & Ht & Hs)];
    rewrite Hr, Ht; cbn [List.length].
  - split; [lia|tauto].
  - split; [lia|]. split; [intros E; contradiction|discriminate].
Qed.

(** X19. The service id a pulsator draws, [uint8(rand.Intn(254) + 1)], is
    between 1 and 254: the conversion never wraps and the id is never the
    zero that marks a free token.  On a free token such a pulsator is
    allowed to start and the token becomes its id. *)
Theorem X19_service_id_is_never_zero (r : Z) (m : Client) :
  0 <= r < 254 ->
  pick_serviceID r = r + 1
  /\ 1 <= pick_serviceID r <= 254
  /\ (pulsating m = 0 ->
      result (AllowedToStartPulsating (pick_serviceID r) m) = true
      /\ pulsating (final (AllowedToStartPulsating (pick_serviceID r) m)) = r + 1).
Proof.
  intros Hr.
  assert (E : pick_serviceID r = r + 1).
  { unfold pick_serviceID, uint8_wrap. apply Z.mod_small. lia. }
  rewrite E. split; [reflexivity|]. split; [lia|].
  intros H0. rewrite AllowedToStartPulsating_unfold, H0. cbn. auto.
Qed.

(** X20. The latency a caller reads.  After a watchdog has seen the
    acknowledgement of its beat, [HeartbeatLatency] answers the time from
    sending to acknowledgement, and reports it as not determined only when
    that time is exactly zero; on a new client it answers zero with the
    not-determined error. *)
Theorem X20_latency_after_an_acknowledged_beat
    (last sent : time.Time) (env : reconnect_env) (m : Client) :
  last < lastHeartbeatAck m ->
  is_int64 (lastHeartbeatAck m - sent) ->
  let m' := final (watchdog last sent false env m) in
  let latency := lastHeartbeatAck m - sent in
  result (HeartbeatLatency m')
    = (latency, if latency =? 0 then Some err_latency else None)
  /\ forall config rl,
       result (HeartbeatLatency (NewClient config rl)) = (0, Some err_latency).
Proof.
  intros Hlt Hfit. cbv zeta. split; [|reflexivity].
  rewrite watchdog_unfold. unfold time.After.
  apply Z.ltb_lt in Hlt. rewrite Hlt. cbn [final fst snd].
  unfold HeartbeatLatency. run. cbn [heartbeatLatency set_heartbeatLatency].
  rewrite time_Sub_exact by exact Hfit.
  destruct (lastHeartbeatAck m - sent =? 0); reflexivity.
Qed.

(** X21. On an invalid session the client waits [(r + 1) * multiplier]
    seconds for the [r] in 0..3 it draws, that is between 1 and 4 times the
    timeout multiplier in seconds, and then identifies: the only frame it
    sends is the Identify frame, when [Connect] has succeeded and the rate
    limiter admits it.  The session is left as it was. *)
Theorem X21_invalid_session_delay_and_identify (r : Z) (m : Client) :
  0 <= r < 4 ->
  0 <= timeoutMultiplier m ->
  4 * timeoutMultiplier m * time.Second <= int64_max ->
  let t := effects (invalidSession r m) in
  let delay := (r + 1) * timeoutMultiplier m * time.Second in
  timeoutMultiplier m * time.Second <= delay <= 4 * timeoutMultiplier m * time.Second
  /\ hd_error t = Some (Sleep delay)
  /\ enqueued t =
       (if haveConnectedOnce m && fst (Request (ratelimit m) (event_Identify K))
        then [identify_frame m] else [])
  /\ same_session m (final (invalidSession r m)).
Proof.
  intros Hr Hm Hfit. cbv zeta.
  assert (Hs : 0 < time.Second) by reflexivity.
  split; [nia|].
  unfold invalidSession, sendIdentityPacket.
  rewrite !effects_bind, !final_bind, !result_bind.
  cbn [get tell effects result final fst snd app hd_error enqueued].
  split; [|split].
  - rewrite int64_wrap_small; [f_equal; f_equal; lia|].
    unfold is_int64, int64_min, int64_max in *. nia.
  - rewrite enqueued_app, Emit_enqueued, command_opcode_Identify.
    destruct (result (Emit _ _ m)); cbn [log_if_err tell ret effects snd enqueued];
      rewrite app_nil_r; reflexivity.
  - eapply same_session_trans; [apply Emit_same_session|].
    destruct (result (Emit _ _ m)); apply same_session_refl.
Qed.

(* --------------------------------------------------------------------- *)
(** ** The receiver *)

Section ReceiverProperties.

Variable UnmarshalJSON : list Byte.byte -> discordPacket * error.

(** X22. While no read fails and the shutdown channel stays open, the
    receiver delivers the decoded packets of the frames that decode, in
    the order the frames were read; a frame that does not decode is
    skipped and does not stop it. *)
Theorem X22_receiver_delivers_the_frames_that_decode (reads : list read_env) :
  Forall (fun r => snd (read_result r) = None) reads ->
  Forall (fun r => shutdown_closed r = false) reads ->
  delivered (receiver UnmarshalJSON reads) =
    map (fun frame => fst (UnmarshalJSON frame))
        (filter (decodes UnmarshalJSON) (map (fun r => fst (read_result r)) reads)).
Proof.
  intros Hr Hs. induction reads as [|r reads IH]; [reflexivity|].
  inversion Hr as [|? ? Hr1 Hr2]; inversion Hs as [|? ? Hs1 Hs2]; subst.
  cbn [receiver map filter]. rewrite Hr1. unfold decodes at 1.
  destruct (UnmarshalJSON (fst (read_result r))) as [evt [e|]] eqn:HU; cbn [snd fst].
  - cbn [delivered]. apply IH; assumption.
  - rewrite Hs1. cbn [delivered map]. rewrite HU. cbn [fst].
    f_equal. apply IH; assumption.
Qed.

(** X23. Where the receiver ends.  A read error ends it on the spot, and
    so does a closed shutdown channel right after a packet was delivered:
    whatever the transport would answer next is never read.  A frame that
    does not decode makes the loop go on without looking at the shutdown
    channel. *)
Theorem X23_where_the_receiver_ends (before after : list read_env) (r : read_env) :
  (snd (read_result r) <> None ->
     receiver UnmarshalJSON (before ++ r :: after)
     = receiver UnmarshalJSON (before ++ [r]))
  /\ (snd (read_result r) = None ->
      decodes UnmarshalJSON (fst (read_result r)) = true ->
      shutdown_closed r = true ->
      receiver UnmarshalJSON (before ++ r :: after)
      = receiver UnmarshalJSON (before ++ [r]))
  /\ (snd (read_result r) = None ->
      decodes UnmarshalJSON (fst (read_result r)) = false ->
      delivered (receiver UnmarshalJSON (r :: after))
      = delivered (receiver UnmarshalJSON after)).
Proof.
  split; [|split].
  - intros Herr. induction before as [|x before IH]; cbn [app receiver].
    + destruct (snd (read_result r)); [reflexivity|contradiction].
    + rewrite IH. reflexivity.
  - intros Hok Hwf Hsd. induction before as [|x before IH]; cbn [app receiver].
    + rewrite Hok. unfold decodes in Hwf.
      destruct (UnmarshalJSON (fst (read_result r))) as [evt [e|]]; cbn [snd] in *;
        [discriminate|]. rewrite Hsd. reflexivity.
    + rewrite IH. reflexivity.
  - intros Hok Hwf. cbn [receiver]. rewrite Hok. unfold decodes in Hwf.
    destruct (UnmarshalJSON (fst (read_result r))) as [evt [e|]]; cbn [snd] in *;
      [reflexivity|discriminate].
Qed.

End ReceiverProperties.

End Properties.

(* ===================================================================== *)
(** * The claims on concrete runs *)

(** The specification's scenario 3: at sequence number 5 an event with
    [s = 7] arrives. *)
Lemma C1_witness :
  let m := sample_session in
  let r := operationHandlers_packet 0 (sample_event 7 "MESSAGE_CREATE") m in
  r = eventHandler (sample_event 7 "MESSAGE_CREATE") m
  /\ final r = m
  /\ sequenceNumber (final r) = 5
  /\ forwarded (effects r) = []
  /\ spawned (effects r) = [GReconnect].
Proof.
  apply (@C1_sequence_gap_forces_reconnect sample_world 0
           (sample_event 7 "MESSAGE_CREATE") sample_session).
  - vm_compute. split; [discriminate|reflexivity].
  - reflexivity.
  - vm_compute. discriminate.
Defined.

(** The specification's scenario 5: a Hello arrives at session "abc",
    sequence number 5. *)
Lemma C2_witness :
  let r := operationHandlers_packet 0 sample_hello sample_session in
  heartbeatInterval (final r) = 45000
  /\ spawned (effects r) = [GPulsate]
  /\ enqueued (effects r) =
       [{| c_Op := opcode.Resume;
           c_Data := DResume {| rs_Token := "T"; rs_SessionID := "abc";
                                rs_SequenceNr := 5 |} |}].
Proof.
  apply (@C2_hello_identify_or_resume sample_world 0 sample_hello sample_session).
  reflexivity.
Defined.

(** A Hello that reaches a client on which no [Connect] has succeeded (as
    one built by [NewTestClient], whose receiver runs from the start): no
    frame is sent. *)
Lemma C2_counterexample :
  let r := operationHandlers_packet 0 sample_hello sample_fresh in
  p_Op sample_hello = opcode.Hello
  /\ enqueued (effects r) = []
  /\ ~ (exists frame, enqueued (effects r) = [frame]).
Proof.
  cbv zeta. split; [reflexivity|]. split; [reflexivity|].
  intros [frame H]. vm_compute in H. discriminate.
Qed.

(** After a resume at sequence number 5 the gateway dispatches
    [{"op":0,"s":6,"t":"RESUMED"}]; RESUMED is not registered. *)
Lemma C3_witness :
  let p := sample_event 6 "RESUMED" in
  let q := sample_event 6 "READY" in
  let r := operationHandlers_packet 0 p resumed_session in
  forwarded (effects r) = []
  /\ sequenceNumber (final r) = 6
  /\ forwarded (effects (operationHandlers_packet 0 q resumed_session))
     = [{| Name := "READY"; Data := [] |}]
  /\ forwarded (effects (operationHandlers_packet 0 p
                           (final (RegisterEvent "RESUMED" resumed_session))))
     = [{| Name := "RESUMED"; Data := [] |}].
Proof.
  pose proof (@C3_untracked_RESUMED_is_dropped command_world 0
                (sample_event 6 "RESUMED") (sample_event 6 "READY") resumed_session
                ltac:(discriminate) ltac:(discriminate) eq_refl eq_refl eq_refl
                (fun H => H)) as (H1 & H2 & H3 & H4).
  split; [exact H1|]. split; [exact H2|].
  split; [exact (H3 eq_refl eq_refl eq_refl) | exact H4].
Defined.

Lemma C4_witness :
  let last := lastHeartbeatAck sample_session in
  let r := watchdog last 10 false sample_reconnect
             (set_lastHeartbeatAck 35 sample_session) in
  spawned (effects (pulsate_beat 10 sample_session)) = [GWatchdog last 10]
  /\ (In log_forcing (effects r) <-> 35 <= last)
  /\ (35 <= last ->
      r = (tt, final (reconnect sample_reconnect (set_lastHeartbeatAck 35 sample_session)),
           log_forcing
           :: effects (reconnect sample_reconnect (set_lastHeartbeatAck 35 sample_session))))
  /\ (last < 35 ->
      r = (tt, set_heartbeatLatency (time.Sub 35 10) (set_lastHeartbeatAck 35 sample_session), [])
      /\ (is_int64 (35 - 10) -> heartbeatLatency (final r) = 35 - 10)).
Proof.
  exact (@C4_watchdog_deadline sample_world 10 sample_reconnect sample_session
           (set_lastHeartbeatAck 35 sample_session)).
Defined.

(** C5 fails on the code by one attempt.  The loop
    [for try := 0; try <= maxReconnectTries; try++] runs for try = 0..5:
    when five calls of [Connect] have failed, [reconnect] does not answer
    the too-many-attempts error but waits and calls [Connect] a sixth time;
    here that call succeeds and [reconnect] answers nil.  The waits between
    the attempts are the claim's (try+3)*2 = 6, 8, 10, 12, 14 seconds. *)
Theorem C5_sixth_attempt :
  let r := reconnect sample_reconnect sample_session in
  attempts (effects r) = [0; 1; 2; 3; 4; 5]
  /\ map fst (waits (effects r)) =
       map (fun s => s * time.Second) [6; 8; 10; 12; 14]
  /\ result r = None
  /\ ~ (List.length (attempts (effects r)) <= Z.to_nat maxReconnectTries)%nat.
Proof.
  vm_compute. split; [reflexivity|]. split; [reflexivity|]. split; [reflexivity|].
  intros H. repeat (apply le_S_n in H). inversion H.
Qed.

Lemma C6_witness :
  let r1 := reconnect sample_reconnect sample_session in
  let r2 := reconnect sample_reconnect_again (final r1) in
  (In RestartSignal (effects r1) <-> half_second < 1000000000 - 0)
  /\ (In RestartSignal (effects r1) ->
      half_second <= 1000000000 - 0 /\ lastRestart (final r1) = 1000000000)
  /\ (1000000000 - 0 <= half_second -> r1 = (None, sample_session, []))
  /\ (lastRestart (final r1) = lastRestart (final r1) ->
      1200000000 - 1000000000 <= half_second ->
      ~ (In RestartSignal (effects r1) /\ In RestartSignal (effects r2))
      /\ (attempts (effects r1) = [] \/ attempts (effects r2) = [])).
Proof.
  apply (@C6_reconnect_debounce sample_world sample_reconnect sample_reconnect_again
           sample_session
           (final (reconnect sample_reconnect sample_session)));
    vm_compute; split; discriminate.
Defined.

(** C7 fails on the code when two pulsators draw the same service id.
    [rand.Intn(254)] answering 6 twice gives both goroutines the id 7; the
    second [AllowedToStartPulsating(7)] answers true because the token
    equals 7, so two pulsators run; when one of them exits the token goes
    to zero while the other is still running. *)
Theorem C7_colliding_service_ids :
  let st0 := (sample_fresh, []) in
  let two := pulse_run st0 [PStart (pick_serviceID 6); PStart (pick_serviceID 6)] in
  let one := pulse_run two [PExit 7] in
  pick_serviceID 6 = 7
  /\ single_flight st0
  /\ snd two = [7; 7]
  /\ pulsating (fst two) = 7
  /\ ~ single_flight two
  /\ snd one = [7]
  /\ pulsating (fst one) = 0
  /\ ~ single_flight one.
Proof.
  cbv zeta. repeat split; try reflexivity.
  - left. split; reflexivity.
  - intros [[H _]|(sid & H & _)]; vm_compute in H; discriminate.
  - intros [[H _]|(sid & H & Htok & Hsid)];
      [vm_compute in H; discriminate | vm_compute in H, Htok; congruence].
Qed.

Lemma C8_witness :
  let command := "HEARTBEAT"%string in
  let m := sample_session in
  let r := Emit command (DUint 5) m in
  let accepted := fst (@Request sample_world (ratelimit m) command) in
  let m' := set_ratelimit (snd (@Request sample_world (ratelimit m) command)) m in
  (haveConnectedOnce m = false -> r = (Some err_not_connected, m, []))
  /\ (haveConnectedOnce m = true ->
      ~ In command (map fst (@command_table sample_world)) ->
      r = (Some (err_unsupported command), m, []))
  /\ (forall op,
        haveConnectedOnce m = true ->
        In (command, op) (@command_table sample_world) ->
        (accepted = false -> r = (Some err_rate_limited, m', []))
        /\ (accepted = true ->
            r = (None, m', [Enqueue {| c_Op := op; c_Data := DUint 5 |}])))
  /\ written (effects r) = [].
Proof.
  exact (@C8_emit_gates sample_world "HEARTBEAT" (DUint 5) sample_session).
Defined.

(** A command outside the table, handed to a client on which no [Connect]
    has succeeded: the answer is the not-connected error, not the
    unsupported-command error. *)
Lemma C8_counterexample :
  ~ In "BOGUS"%string (map fst (@command_table sample_world))
  /\ result (Emit "BOGUS" DNil sample_fresh) = Some err_not_connected
  /\ result (Emit "BOGUS" DNil sample_fresh) <> Some (err_unsupported "BOGUS").
Proof.
  split; [|split].
  - cbn. intuition discriminate.
  - reflexivity.
  - vm_compute. discriminate.
Qed.

Lemma C9_witness :
  let ps := [sample_event 1 "READY"; sample_event 2 "MESSAGE_CREATE";
             sample_event 3 "TYPING_START"] in
  sequenceNumber (final (operationHandlers_run 0 ps sample_fresh)) = 3.
Proof.
  apply (@C9_counter_counts_events sample_world 0
           [sample_event 1 "READY"; sample_event 2 "MESSAGE_CREATE";
            sample_event 3 "TYPING_START"] sample_fresh).
  - reflexivity.
  - repeat constructor.
  - reflexivity.
  - repeat constructor; vm_compute; discriminate.
Defined.

Lemma C10_witness :
  let r := Disconnect false sample_fresh in
  result r = Some err_already_disconnected
  /\ final r = set_disconnected true sample_fresh
  /\ disconnected (final r) = true
  /\ enqueued (effects r) = []
  /\ effects r = [].
Proof.
  apply (@C10_disconnect_when_not_connected sample_world false sample_fresh).
  right. reflexivity.
Defined.

(* ===================================================================== *)
(** * The further properties on concrete runs *)

Lemma X2_witness :
  NoDup (trackedEvents
           (final (track_all [DoRegister "A"; DoRegister "B"; DoRegister "A";
                              DoRemove "A"] sample_fresh))).
Proof.
  apply (@X2_tracked_events_stay_duplicate_free sample_world).
  constructor.
Defined.

Lemma X3_witness :
  Permutation (trackedEvents (final (RemoveEvent "A" sample_tracking)))
              ["B"; "C"]%string.
Proof.
  exact (proj1 (@X3_remove_event_removes_first_occurrence sample_world
                  "A" sample_tracking [] ["B"; "C"]%string eq_refl (fun H => H))).
Defined.

Lemma X4_witness :
  final (RemoveEvent "A" (final (RegisterEvent "A" sample_session))) = sample_session.
Proof.
  apply (@X4_register_then_remove_round_trip sample_world "A" sample_session).
  exact (fun H => H).
Defined.

Lemma X5_witness :
  let p := sample_event 6 "MESSAGE_CREATE" in
  forwarded (effects (operationHandlers_packet 0 p
                        (final (RegisterEvent "MESSAGE_CREATE" sample_session))))
  = [event_of p].
Proof.
  refine (proj1 (@X5_registration_decides_delivery sample_world 0
                   (sample_event 6 "MESSAGE_CREATE") sample_session _ _ _)).
  - reflexivity.
  - reflexivity.
  - constructor.
Defined.

Lemma X7_witness :
  result (Disconnect false sample_session) = None
  /\ disconnected (final (Disconnect false sample_session)) = true.
Proof.
  pose proof (@X7_disconnect_on_live_connection sample_world sample_session eq_refl)
    as (H1 & H2 & _).
  split; [exact H1 | exact H2].
Defined.

Lemma X11_witness :
  written (effects (perform_all sample_actions sample_fresh)) = []
  /\ closings (effects (perform_all sample_actions sample_fresh)) = 0%nat.
Proof.
  apply (@X11_only_the_emitter_uses_the_transport sample_world).
  repeat constructor.
Defined.

Lemma X12_witness :
  sequenceNumber (final (operationHandlers_packet 0 sample_hello sample_session))
  = sequenceNumber sample_session.
Proof.
  refine (proj1 (proj2 (@X12_what_a_packet_changes_in_the_session sample_world 0
                          sample_hello sample_session _)) _).
  - vm_compute. split; [discriminate|reflexivity].
  - intros [H _]. discriminate H.
Defined.

Lemma X17_witness :
  result (lockRestart_calls [1000000000; 1200000000; 1600000000] sample_session)
  = [1000000000; 1600000000]
  /\ spaced 0 (result (lockRestart_calls [1000000000; 1200000000; 1600000000]
                         sample_session)).
Proof.
  split; [reflexivity|].
  refine (proj1 (@X17_granted_restarts_are_spaced sample_world
                   [1000000000; 1200000000; 1600000000] sample_session _ _)).
  - vm_compute. split; discriminate.
  - repeat constructor; vm_compute; discriminate.
Defined.

Lemma X18_witness :
  let st := pulse_run (@NewClient sample_world sample_config 3%nat, [])
              [PStart 7; PExit 7; PStart 9] in
  (List.length (snd st) <= 1)%nat
  /\ (pulsating (fst st) = 0 <-> snd st = []).
Proof.
  apply (@X18_single_flight_without_collisions sample_world sample_config 3%nat
           [PStart 7; PExit 7; PStart 9]).
  vm_compute. repeat split; intros H; first [discriminate H | exact H].
Defined.

Lemma X19_witness :
  pick_serviceID 6 = 6 + 1 /\ 1 <= pick_serviceID 6 <= 254.
Proof.
  pose proof (@X19_service_id_is_never_zero sample_world 6 sample_fresh
                ltac:(lia)) as (H1 & H2 & _).
  split; [exact H1 | exact H2].
Defined.

Lemma X20_witness :
  result (HeartbeatLatency
            (final (watchdog 0 10 false sample_reconnect
                      (set_lastHeartbeatAck 35 sample_session))))
  = (25, None).
Proof.
  refine (proj1 (@X20_latency_after_an_acknowledged_beat sample_world 0 10
                   sample_reconnect (set_lastHeartbeatAck 35 sample_session) _ _)).
  - reflexivity.
  - vm_compute. split; discriminate.
Defined.

Lemma X21_witness :
  hd_error (effects (invalidSession 2 sample_session)) = Some (Sleep 3000000000).
Proof.
  refine (proj1 (proj2 (@X21_invalid_session_delay_and_identify sample_world 2
                          sample_session _ _ _))).
  - lia.
  - vm_compute. discriminate.
  - vm_compute. discriminate.
Defined.

Lemma X22_witness :
  delivered (receiver sample_UnmarshalJSON sample_reads)
  = [sample_event 1 "MESSAGE_CREATE"; sample_event 2 "MESSAGE_CREATE"].
Proof.
  apply (X22_receiver_delivers_the_frames_that_decode sample_UnmarshalJSON sample_reads);
    repeat constructor.
Defined.

Lemma X24_witness :
  enqueued (effects (operationHandlers_packet 0 sample_hello
                       (final (Connect (attempt sample_reconnect 5) sample_fresh))))
  = [identify_frame sample_fresh].
Proof.
  apply (@X24_first_hello_identifies sample_world sample_config 3%nat
           (attempt sample_reconnect 5) 0 sample_hello); reflexivity.
Defined.

Lemma X25_witness :
  let m1 := final (operationHandlers_packet 0 (sample_event 6 "MESSAGE_CREATE")
                     sample_session) in
  sequenceNumber m1 = 6
  /\ enqueued (effects (operationHandlers_packet 0 sample_hello m1)) = [resume_frame m1].
Proof.
  apply (@X25_hello_after_an_event_resumes sample_world 0 0
           (sample_event 6 "MESSAGE_CREATE") sample_hello sample_session).
  - vm_compute. discriminate.
  - reflexivity.
  - reflexivity.
  - reflexivity.
  - reflexivity.
Defined.
